(** * Entity lifecycle and validation of the Author / Magazine / Article layer

    A shallow embedding of [models/author.py], [models/magazine.py],
    [models/article.py] and of the schema of [database/setup.py].

    - Python values reaching the constructors are [pyval] (None, int, str);
      a [str] is a [string] whose characters are code points below 256.
    - The SQLite store is a record of three tables (lists of rows in rowid
      order) with their AUTOINCREMENT counters; the constraints of the schema
      are checked by the insert and update statements.
    - Integers are [Z].  SQLite's are 64 bits: an INSERT at an exhausted
      AUTOINCREMENT key is refused, and the look-ups by id are modelled for
      the integers sqlite3 can bind ([binds]).
    - Methods run in a state-and-exception monad; an instance method has the
      object and the store as its state, so that a raise leaves both visible. *)

From Stdlib Require Import ZArith List String Ascii Bool Lia.
Import ListNotations.

Local Open Scope string_scope.
Local Open Scope Z_scope.

(* ================================================================= *)
(** ** Python strings and values *)

(** [str.isspace] on the code points below 256. *)
Definition isspace (c : ascii) : bool :=
  let n := N_of_ascii c in
  (((9 <=? n) && (n <=? 13)) || ((28 <=? n) && (n <=? 32))
   || (n =? 133) || (n =? 160))%N.

Fixpoint lstrip (s : string) : string :=
  match s with
  | EmptyString => EmptyString
  | String c r => if isspace c then lstrip r else s
  end.

Fixpoint rstrip (s : string) : string :=
  match s with
  | EmptyString => EmptyString
  | String c r =>
      match rstrip r with
      | EmptyString => if isspace c then EmptyString else String c EmptyString
      | r' => String c r'
      end
  end.

(** [s.strip()] *)
Definition strip (s : string) : string := rstrip (lstrip s).

(** [len(s)] *)
Definition len (s : string) : Z := Z.of_nat (String.length s).

Fixpoint all_space (s : string) : bool :=
  match s with
  | EmptyString => true
  | String c r => isspace c && all_space r
  end.

Inductive pyval : Type :=
| PyNone
| PyInt (z : Z)
| PyStr (s : string).

(** Truth value of an object, as [if x:] and [not x] test it. *)
Definition truthy (v : pyval) : bool :=
  match v with
  | PyNone => false
  | PyInt z => negb (z =? 0)
  | PyStr s => negb (String.eqb s "")
  end.

Definition is_None (v : pyval) : bool :=
  match v with PyNone => true | _ => false end.

(** [isinstance(v, int) and v > 0], giving the integer. *)
Definition positive_int (v : pyval) : option Z :=
  match v with
  | PyInt z => if 0 <? z then Some z else None
  | _ => None
  end.

(** [isinstance(v, str)], giving the string. *)
Definition as_str (v : pyval) : option string :=
  match v with PyStr s => Some s | _ => None end.

(** An attribute that holds [None] or an int, read back as a value. *)
Definition py_of_id (o : option Z) : pyval :=
  match o with None => PyNone | Some z => PyInt z end.

(** An attribute that holds [None] or a str is falsy when [None] or empty. *)
Definition falsy_attr (o : option string) : bool :=
  match o with None => true | Some s => String.eqb s "" end.

(* ================================================================= *)
(** ** Exceptions *)

(** The constraints declared by [create_tables]. *)
Inductive constraint : Type :=
| UNIQUE_authors_name
| UNIQUE_magazines_name
| CHECK_magazines_category
| CHECK_articles_title
| FOREIGN_KEY.

(** The messages of the [ValueError]s the three classes raise. *)
Inductive message : Type :=
| Author_needs_id_or_name
| ID_must_be_positive
| Author_not_in_database (id : Z)
| Name_must_be_non_empty
| Author_row_gone
| Author_not_found (id : Z)
| Magazine_needs_id_or_name_and_category
| Magazine_not_in_database (id : Z)
| Name_must_be_2_to_16
| Category_must_be_non_empty
| Magazine_not_found (id : Z)
| Title_must_be_5_to_50
| Content_must_be_non_empty
| Author_ID_must_be_positive
| Magazine_ID_must_be_positive
| Author_does_not_exist (id : Z)
| Magazine_does_not_exist (id : Z)
| Article_not_in_database (id : Z).

Inductive exn : Type :=
| ValueError (m : message)
| TypeError
| UnboundLocalError
| IntegrityError (c : constraint)   (* sqlite3.IntegrityError *)
| OperationalError.                 (* sqlite3.OperationalError *)

(** The error classes the specification speaks of.  The code raises
    [ValueError] both for rejected arguments and for absent rows; the
    message tells them apart.  sqlite3's exceptions are the storage errors;
    the other built-in exceptions belong to no class. *)
Inductive error_class : Type :=
| ValidationError
| NotFound
| StorageError
| Unclassified.

Definition classify (e : exn) : error_class :=
  match e with
  | ValueError (Author_not_in_database _)
  | ValueError Author_row_gone
  | ValueError (Author_not_found _)
  | ValueError (Magazine_not_in_database _)
  | ValueError (Magazine_not_found _)
  | ValueError (Article_not_in_database _) => NotFound
  | ValueError _ => ValidationError
  | IntegrityError _ | OperationalError => StorageError
  | TypeError | UnboundLocalError => Unclassified
  end.

(* ================================================================= *)
(** ** The store *)

Record author_row : Type :=
  { a_id : Z; a_name : string }.

Record magazine_row : Type :=
  { m_id : Z; m_name : string; m_category : string }.

Record article_row : Type :=
  { r_id : Z; r_title : string; r_content : string;
    r_author_id : Z; r_magazine_id : Z }.

(** What [print] wrote. *)
Inductive diag : Type :=
| Print (s : string)
| Print_error_creating_tables (e : exn)
| Print_error_fetching_articles (author : option Z) (e : exn)
| Print_error_fetching_magazines (author : option Z) (e : exn).

(** A table: its rows in rowid order and the largest rowid it ever held
    (the [sqlite_sequence] entry of an AUTOINCREMENT key). *)
Record table (R : Type) : Type :=
  { rows : list R; seq : Z }.
Arguments rows {R} _.
Arguments seq {R} _.
Arguments Build_table {R} _ _.

Record world : Type :=
  { online : bool;            (* get_db_connection() can open the database *)
    foreign_keys : bool;      (* PRAGMA foreign_keys of the connections *)
    authors : table author_row;
    magazines : table magazine_row;
    articles : table article_row;
    stdout : list diag }.

Definition set_authors (t : table author_row) (w : world) : world :=
  {| online := online w; foreign_keys := foreign_keys w; authors := t;
     magazines := magazines w; articles := articles w; stdout := stdout w |}.

Definition set_magazines (t : table magazine_row) (w : world) : world :=
  {| online := online w; foreign_keys := foreign_keys w; authors := authors w;
     magazines := t; articles := articles w; stdout := stdout w |}.

Definition set_articles (t : table article_row) (w : world) : world :=
  {| online := online w; foreign_keys := foreign_keys w; authors := authors w;
     magazines := magazines w; articles := t; stdout := stdout w |}.

Definition write_stdout (d : diag) (w : world) : world :=
  {| online := online w; foreign_keys := foreign_keys w; authors := authors w;
     magazines := magazines w; articles := articles w;
     stdout := stdout w ++ [d] |}.

(* ================================================================= *)
(** ** State and exceptions *)

Inductive res (A : Type) : Type :=
| Ok (a : A)
| Raise (e : exn).
Arguments Ok {A} _.
Arguments Raise {A} _.

Definition M (S A : Type) : Type := S -> res A * S.

Definition ret {S A} (a : A) : M S A := fun s => (Ok a, s).

Definition raise {S A} (e : exn) : M S A := fun s => (Raise e, s).

Definition bind {S A B} (m : M S A) (k : A -> M S B) : M S B :=
  fun s =>
    match m s with
    | (Ok a, s') => k a s'
    | (Raise e, s') => (Raise e, s')
    end.

(** [try: m  except Exception as e: h e] *)
Definition try_except {S A} (m : M S A) (h : exn -> M S A) : M S A :=
  fun s =>
    match m s with
    | (Ok a, s') => (Ok a, s')
    | (Raise e, s') => h e s'
    end.

(** [try: m  except ValueError: h]; any other exception goes through. *)
Definition except_ValueError {S A} (m : M S A) (h : M S A) : M S A :=
  try_except m (fun e => match e with ValueError _ => h | _ => raise e end).

Definition gets {S A} (f : S -> A) : M S A := fun s => (Ok (f s), s).

Definition modify {S} (f : S -> S) : M S unit := fun s => (Ok tt, f s).

Declare Scope py_scope.
Delimit Scope py_scope with py.
Notation "x <- m ;; k" := (bind m (fun x => k))
  (at level 61, m at next level, right associativity) : py_scope.
Notation "m ;;; k" := (bind m (fun _ => k))
  (at level 61, right associativity) : py_scope.
Local Open Scope py_scope.

Fixpoint mapM {S A B} (f : A -> M S B) (l : list A) : M S (list B) :=
  match l with
  | [] => ret []
  | x :: r => y <- f x ;; ys <- mapM f r ;; ret (y :: ys)
  end.

(** A method of an object of type [O] has the object and the store as state. *)
Definition method (O A : Type) : Type := M (O * world) A.

(** A statement on the store, run from inside a method. *)
Definition on_world {O A} (m : M world A) : method O A :=
  fun s =>
    match m (snd s) with
    | (r, w') => (r, (fst s, w'))
    end.

Definition self {O} : method O O := gets fst.

Definition assign {O} (f : O -> O) : method O unit :=
  modify (fun s => (f (fst s), snd s)).

(** [cls(...)]: a fresh object runs [__init__]; the caller gets the object
    only when [__init__] returns. *)
Definition construct {O} (blank : O) (init : method O unit) : M world O :=
  fun w =>
    match init (blank, w) with
    | (Ok _, (o, w')) => (Ok o, w')
    | (Raise e, (_, w')) => (Raise e, w')
    end.

Definition require {S A} (o : option A) (e : exn) : M S A :=
  match o with Some a => ret a | None => raise e end.

(* ================================================================= *)
(** ** SQLite: connection and statements *)

(** Modelled from the spec: [database/connection.py], which defines
    [get_db_connection], is not among the sources.  Opening the store either
    gives a connection or fails with a storage error (connectivity); the
    statements run on the connection obey the schema of [create_tables]. *)
Definition get_db_connection : M world unit :=
  fun w => if online w then (Ok tt, w) else (Raise OperationalError, w).

(** SQL [LENGTH(X)] of a text value: the characters before the first NUL. *)
Fixpoint sqlite_length (s : string) : Z :=
  match s with
  | EmptyString => 0
  | String c r => if (N_of_ascii c =? 0)%N then 0 else 1 + sqlite_length r
  end.

(** The largest rowid SQLite can give, and the largest integer sqlite3 can
    bind to a parameter: 2^63 - 1. *)
Definition max_int64 : Z := 9223372036854775807.

(** The integers sqlite3 binds to a parameter; for any other Python int
    [execute] raises OverflowError, a path the statements below leave out. *)
Definition binds (i : Z) : Prop := - max_int64 - 1 <= i <= max_int64.

(** The rowid an AUTOINCREMENT key gives the next row: one more than the
    largest rowid the table holds or ever held, 1 in a table never used.
    When that is beyond [max_int64] the key is exhausted and the INSERT is
    refused ("database or disk is full") before any constraint is checked. *)
Definition max_rowid (ids : list Z) : option Z :=
  match ids with
  | [] => None
  | i :: r => Some (fold_right Z.max i r)
  end.

Definition next_rowid (sq : Z) (ids : list Z) : Z :=
  Z.max (sq + 1) (match max_rowid ids with None => 1 | Some m => m + 1 end).

(** [WHERE id = ?] with the parameter [None] (NULL) matches no row. *)
Definition id_is (p : option Z) (i : Z) : bool :=
  match p with None => false | Some z => i =? z end.

(** SELECT DISTINCT keeps one copy of each row. *)
Fixpoint distinct {A} (eqb : A -> A -> bool) (l : list A) : list A :=
  match l with
  | [] => []
  | x :: r => x :: filter (fun y => negb (eqb x y)) (distinct eqb r)
  end.


(** SELECT name FROM authors WHERE id = ?   (fetchone) *)
Definition select_author_name (p : option Z) (w : world) : option string :=
  option_map a_name (find (fun r => id_is p (a_id r)) (rows (authors w))).

(** SELECT id, name FROM authors WHERE id = ?   (fetchone) *)
Definition select_author (p : option Z) (w : world) : option (Z * string) :=
  option_map (fun r => (a_id r, a_name r))
    (find (fun r => id_is p (a_id r)) (rows (authors w))).

(** SELECT id FROM authors WHERE name = ?   (fetchone) *)
Definition select_author_id (name : string) (w : world) : option Z :=
  option_map a_id (find (fun r => String.eqb (a_name r) name) (rows (authors w))).

(** SELECT name, category FROM magazines WHERE id = ?   (fetchone) *)
Definition select_magazine_name_category (p : option Z) (w : world)
  : option (string * string) :=
  option_map (fun r => (m_name r, m_category r))
    (find (fun r => id_is p (m_id r)) (rows (magazines w))).

(** SELECT id, name, category FROM magazines WHERE id = ?   (fetchone) *)
Definition select_magazine (p : option Z) (w : world)
  : option (Z * string * string) :=
  option_map (fun r => (m_id r, m_name r, m_category r))
    (find (fun r => id_is p (m_id r)) (rows (magazines w))).

(** SELECT id FROM magazines WHERE name = ? AND category = ?   (fetchone) *)
Definition select_magazine_id (name category : string) (w : world) : option Z :=
  option_map m_id
    (find (fun r => String.eqb (m_name r) name && String.eqb (m_category r) category)
       (rows (magazines w))).


(** SELECT title, content, author_id FROM articles
    WHERE magazine_id = ?   (fetchall) *)
Definition select_articles_of_magazine (p : option Z) (w : world)
  : list (string * string * Z) :=
  map (fun r => (r_title r, r_content r, r_author_id r))
    (filter (fun r => id_is p (r_magazine_id r)) (rows (articles w))).


(** SELECT DISTINCT authors.name
    FROM authors INNER JOIN articles ON articles.author_id = authors.id
    WHERE articles.magazine_id = ?   (fetchall)
    No ORDER BY here either: membership and multiplicity only. *)
Definition select_contributor_names (p : option Z) (w : world) : list string :=
  distinct String.eqb
    (flat_map
       (fun a =>
          map (fun _ => a_name a)
            (filter (fun r => (r_author_id r =? a_id a) && id_is p (r_magazine_id r))
               (rows (articles w))))
       (rows (authors w))).

(** INSERT INTO authors (name) VALUES (?), then commit; gives [lastrowid]. *)
Definition insert_author (name : string) : M world Z :=
  fun w =>
    let t := authors w in
    let i := next_rowid (seq t) (map a_id (rows t)) in
    if max_int64 <? i
    then (Raise OperationalError, w)
    else if existsb (fun r => String.eqb (a_name r) name) (rows t)
    then (Raise (IntegrityError UNIQUE_authors_name), w)
    else
      (Ok i, set_authors
               {| rows := rows t ++ [{| a_id := i; a_name := name |}]; seq := i |} w).

(** INSERT INTO magazines (name, category) VALUES (?, ?), then commit. *)
Definition insert_magazine (name category : string) : M world Z :=
  fun w =>
    let t := magazines w in
    let i := next_rowid (seq t) (map m_id (rows t)) in
    if max_int64 <? i
    then (Raise OperationalError, w)
    else if negb (0 <? sqlite_length category)
    then (Raise (IntegrityError CHECK_magazines_category), w)
    else if existsb (fun r => String.eqb (m_name r) name) (rows t)
    then (Raise (IntegrityError UNIQUE_magazines_name), w)
    else
      (Ok i, set_magazines
               {| rows := rows t ++ [{| m_id := i; m_name := name;
                                        m_category := category |}];
                  seq := i |} w).

(** INSERT INTO articles (title, content, author_id, magazine_id)
    VALUES (?, ?, ?, ?), then commit. *)
Definition insert_article (title content : string) (author_id magazine_id : Z)
  : M world Z :=
  fun w =>
    let t := articles w in
    let i := next_rowid (seq t) (map r_id (rows t)) in
    if max_int64 <? i
    then (Raise OperationalError, w)
    else if negb ((5 <=? sqlite_length title) && (sqlite_length title <=? 50))
    then (Raise (IntegrityError CHECK_articles_title), w)
    else if foreign_keys w
            && negb (existsb (fun r => a_id r =? author_id) (rows (authors w))
                     && existsb (fun r => m_id r =? magazine_id) (rows (magazines w)))
    then (Raise (IntegrityError FOREIGN_KEY), w)
    else
      (Ok i, set_articles
               {| rows := rows t ++ [{| r_id := i; r_title := title;
                                        r_content := content;
                                        r_author_id := author_id;
                                        r_magazine_id := magazine_id |}];
                  seq := i |} w).

(** UPDATE articles SET content = ? WHERE id = ?, then commit. *)
Definition update_article_content (content : string) (p : option Z) : M world unit :=
  modify (fun w =>
    set_articles
      {| rows := map (fun r => if id_is p (r_id r)
                               then {| r_id := r_id r; r_title := r_title r;
                                       r_content := content;
                                       r_author_id := r_author_id r;
                                       r_magazine_id := r_magazine_id r |}
                               else r) (rows (articles w));
         seq := seq (articles w) |} w).

(** [fetch_data(self, query, params)]: open a connection, run the query,
    [fetchone].  The three classes define it alike. *)
Definition fetch_data {A} (query : world -> option A) : M world (option A) :=
  get_db_connection ;;; gets query.

(** A call of the function [fetch_data] with [nargs] positional arguments,
    the object a bound call passes first included: [self.fetch_data(q, p)]
    passes three, [cls.fetch_data(q, p)] passes two and Python raises
    [TypeError] for the missing one. *)
Definition call_fetch_data {A} (nargs : nat) (query : world -> option A)
  : M world (option A) :=
  if Nat.eqb nargs 3 then fetch_data query else raise TypeError.

(* ================================================================= *)
(** ** database/setup.py *)

Definition empty_table {R} : table R := {| rows := []; seq := 0 |}.

(** [create_tables]: drop and recreate the three tables.  When the connection
    cannot be opened the handler prints, and the [finally] clause then reads
    the unbound local [conn]. *)
Definition create_tables : M world unit :=
  try_except
    (get_db_connection ;;;
     modify (write_stdout (Print "Dropping existing tables...")) ;;;
     modify (write_stdout (Print "Creating authors table...")) ;;;
     modify (write_stdout (Print "Creating magazines table...")) ;;;
     modify (write_stdout (Print "Creating articles table...")) ;;;
     modify (fun w => set_authors empty_table
                        (set_magazines empty_table (set_articles empty_table w))) ;;;
     modify (write_stdout (Print "Tables recreated successfully.")))
    (fun e =>
       modify (write_stdout (Print_error_creating_tables e)) ;;;
       raise UnboundLocalError).

(* ================================================================= *)
(** ** models/magazine.py *)

Record Magazine : Type :=
  { Magazine_id : option Z;
    Magazine_name : option string;
    Magazine_category : option string }.

(** [isinstance(v, str) and 2 <= len(v) <= 16] *)
Definition str_2_to_16 (v : pyval) : option string :=
  match v with
  | PyStr s => if (2 <=? len s) && (len s <=? 16) then Some s else None
  | _ => None
  end.

(** [isinstance(v, str) and len(v) != 0] *)
Definition str_non_empty (v : pyval) : option string :=
  match v with
  | PyStr s => if len s =? 0 then None else Some s
  | _ => None
  end.

(** [load_by_id], for the ids sqlite3 can bind ([binds]); a larger integer
    makes [execute] raise OverflowError, which is not modelled. *)
Definition Magazine_load_by_id (magazine_id : pyval) : method Magazine unit :=
  i <- require (positive_int magazine_id) (ValueError ID_must_be_positive) ;;
  on_world get_db_connection ;;;
  result <- on_world (gets (select_magazine_name_category (Some i))) ;;
  match result with
  | Some (n, c) =>
      assign (fun _ => {| Magazine_id := Some i; Magazine_name := Some n;
                          Magazine_category := Some c |})
  | None => raise (ValueError (Magazine_not_in_database i))
  end.

Definition Magazine_create (name category : pyval) : method Magazine unit :=
  n <- require (str_2_to_16 name) (ValueError Name_must_be_2_to_16) ;;
  c <- require (str_non_empty category) (ValueError Category_must_be_non_empty) ;;
  on_world get_db_connection ;;;
  result <- on_world (gets (select_magazine_id n c)) ;;
  match result with
  | Some i =>
      assign (fun _ => {| Magazine_id := Some i; Magazine_name := Some n;
                          Magazine_category := Some c |})
  | None =>
      i <- on_world (insert_magazine n c) ;;
      assign (fun _ => {| Magazine_id := Some i; Magazine_name := Some n;
                          Magazine_category := Some c |})
  end.

Definition Magazine_init (id name category : pyval) : method Magazine unit :=
  assign (fun _ => {| Magazine_id := None; Magazine_name := None;
                      Magazine_category := None |}) ;;;
  if negb (is_None id) then Magazine_load_by_id id
  else if truthy name && truthy category then Magazine_create name category
  else raise (ValueError Magazine_needs_id_or_name_and_category).

(** [Magazine(id=..., name=..., category=...)] *)
Definition new_Magazine (id name category : pyval) : M world Magazine :=
  construct {| Magazine_id := None; Magazine_name := None;
               Magazine_category := None |}
            (Magazine_init id name category).

(** The [name] property. *)
Definition Magazine_get_name : method Magazine (option string) :=
  o <- self ;;
  (if falsy_attr (Magazine_name o)
   then Magazine_load_by_id (py_of_id (Magazine_id o))
   else ret tt) ;;;
  o' <- self ;;
  ret (Magazine_name o').

(** The [category] property. *)
Definition Magazine_get_category : method Magazine (option string) :=
  o <- self ;;
  (if falsy_attr (Magazine_category o)
   then Magazine_load_by_id (py_of_id (Magazine_id o))
   else ret tt) ;;;
  o' <- self ;;
  ret (Magazine_category o').

(** [Magazine.get], for the ids sqlite3 can bind, as [load_by_id]. *)
Definition Magazine_get (magazine_id : pyval) : M world Magazine :=
  i <- require (positive_int magazine_id) (ValueError ID_must_be_positive) ;;
  get_db_connection ;;;
  result <- gets (select_magazine (Some i)) ;;
  match result with
  | Some (i', n, c) => new_Magazine (PyInt i') (PyStr n) (PyStr c)
  | None => raise (ValueError (Magazine_not_found i))
  end.

Definition Magazine_articles : method Magazine (list (string * string * Z)) :=
  o <- self ;;
  on_world get_db_connection ;;;
  on_world (gets (select_articles_of_magazine (Magazine_id o))).

(* ================================================================= *)
(** ** models/author.py *)

Record Author : Type :=
  { Author_id : option Z;
    Author_name : option string }.

(** [isinstance(v, str) and len(v.strip()) != 0] *)
Definition str_non_blank (v : pyval) : option string :=
  match v with
  | PyStr s => if len (strip s) =? 0 then None else Some s
  | _ => None
  end.

(** [load_by_id], for the ids sqlite3 can bind ([binds]); a larger integer
    makes [execute] raise OverflowError, which is not modelled. *)
Definition Author_load_by_id (author_id : pyval) : method Author unit :=
  i <- require (positive_int author_id) (ValueError ID_must_be_positive) ;;
  result <- on_world (call_fetch_data 3 (select_author_name (Some i))) ;;
  match result with
  | Some n => assign (fun _ => {| Author_id := Some i; Author_name := Some n |})
  | None => raise (ValueError (Author_not_in_database i))
  end.

Definition Author_create (name : pyval) : method Author unit :=
  n <- require (str_non_blank name) (ValueError Name_must_be_non_empty) ;;
  result <- on_world (call_fetch_data 3 (select_author_id (strip n))) ;;
  match result with
  | Some i =>
      assign (fun _ => {| Author_id := Some i; Author_name := Some (strip n) |})
  | None =>
      on_world get_db_connection ;;;
      i <- on_world (insert_author (strip n)) ;;
      assign (fun _ => {| Author_id := Some i; Author_name := Some (strip n) |})
  end.

Definition Author_init (id name : pyval) : method Author unit :=
  assign (fun _ => {| Author_id := None; Author_name := None |}) ;;;
  if negb (is_None id) then Author_load_by_id id
  else if truthy name then Author_create name
  else raise (ValueError Author_needs_id_or_name).

(** [Author(id=..., name=...)] *)
Definition new_Author (id name : pyval) : M world Author :=
  construct {| Author_id := None; Author_name := None |} (Author_init id name).

(** The classmethod [get]: it calls [fetch_data] through the class. *)
Definition Author_get (author_id : pyval) : M world Author :=
  i <- require (positive_int author_id) (ValueError ID_must_be_positive) ;;
  result <- call_fetch_data 2 (select_author (Some i)) ;;
  match result with
  | Some (i', n) => new_Author (PyInt i') (PyStr n)
  | None => raise (ValueError (Author_not_found i))
  end.



(** [Magazine.contributors], which imports [Author] when called. *)
Definition Magazine_contributors : method Magazine (list Author) :=
  o <- self ;;
  on_world get_db_connection ;;;
  results <- on_world (gets (select_contributor_names (Magazine_id o))) ;;
  on_world (mapM (fun n => new_Author PyNone (PyStr n)) results).

(* ================================================================= *)
(** ** models/article.py *)

Record Article : Type :=
  { Article_id : option Z;
    Article_title : option string;
    Article_content : option string;
    Article_author_id : option Z;
    Article_magazine_id : option Z }.

(** [isinstance(v, str) and 5 <= len(v) <= 50] *)
Definition str_5_to_50 (v : pyval) : option string :=
  match v with
  | PyStr s => if (5 <=? len s) && (len s <=? 50) then Some s else None
  | _ => None
  end.

(** SELECT id, title, content, author_id, magazine_id FROM articles
    WHERE id = ?   (fetchone) *)
Definition select_article (p : option Z) (w : world) : option article_row :=
  find (fun r => id_is p (r_id r)) (rows (articles w)).

(** [load_by_id] for an integer id that sqlite3 can bind ([binds]); for an
    integer outside 64 bits [execute] raises OverflowError, which is not
    modelled. *)
Definition Article_load_by_id (article_id : Z) : method Article unit :=
  result <- on_world (call_fetch_data 3 (select_article (Some article_id))) ;;
  match result with
  | Some r =>
      assign (fun _ => {| Article_id := Some (r_id r);
                          Article_title := Some (r_title r);
                          Article_content := Some (r_content r);
                          Article_author_id := Some (r_author_id r);
                          Article_magazine_id := Some (r_magazine_id r) |})
  | None => raise (ValueError (Article_not_in_database article_id))
  end.

Definition Article_create (title content author_id magazine_id : pyval)
  : method Article unit :=
  t <- require (str_5_to_50 title) (ValueError Title_must_be_5_to_50) ;;
  c <- require (str_non_blank content) (ValueError Content_must_be_non_empty) ;;
  a <- require (positive_int author_id) (ValueError Author_ID_must_be_positive) ;;
  m <- require (positive_int magazine_id) (ValueError Magazine_ID_must_be_positive) ;;
  on_world (except_ValueError (Author_get author_id)
              (raise (ValueError (Author_does_not_exist a)))) ;;;
  on_world (except_ValueError (Magazine_get magazine_id)
              (raise (ValueError (Magazine_does_not_exist m)))) ;;;
  on_world get_db_connection ;;;
  i <- on_world (insert_article (strip t) (strip c) a m) ;;
  assign (fun _ => {| Article_id := Some i;
                      Article_title := Some (strip t);
                      Article_content := Some (strip c);
                      Article_author_id := Some a;
                      Article_magazine_id := Some m |}).

Definition blank_Article : Article :=
  {| Article_id := None; Article_title := None; Article_content := None;
     Article_author_id := None; Article_magazine_id := None |}.

(** [__init__]; the id, when given, is an integer. *)
Definition Article_init (id : option Z) (title content author_id magazine_id : pyval)
  : method Article unit :=
  assign (fun _ => blank_Article) ;;;
  match id with
  | Some i => Article_load_by_id i
  | None => Article_create title content author_id magazine_id
  end.

(** [Article(id=..., title=..., content=..., author_id=..., magazine_id=...)] *)
Definition new_Article (id : option Z) (title content author_id magazine_id : pyval)
  : M world Article :=
  construct blank_Article (Article_init id title content author_id magazine_id).

(** The setter of the [content] property. *)
Definition Article_set_content (new_content : pyval) : method Article unit :=
  c <- require (str_non_blank new_content) (ValueError Content_must_be_non_empty) ;;
  o <- self ;;
  on_world get_db_connection ;;;
  on_world (update_article_content (strip c) (Article_id o)) ;;;
  assign (fun o => {| Article_id := Article_id o;
                      Article_title := Article_title o;
                      Article_content := Some (strip c);
                      Article_author_id := Article_author_id o;
                      Article_magazine_id := Article_magazine_id o |}).

(* ================================================================= *)
(** ** The remaining accessors and mutators *)

(** UPDATE authors SET name = ? WHERE id = ?, then commit.  The primary key
    lets at most one row match; the UNIQUE index on [name] refuses the
    statement when a row that is not updated holds the new name. *)
Definition update_author_name (name : string) (p : option Z) : M world unit :=
  fun w =>
    let t := authors w in
    if existsb (fun r => id_is p (a_id r)) (rows t)
       && existsb (fun r => negb (id_is p (a_id r)) && String.eqb (a_name r) name)
                  (rows t)
    then (Raise (IntegrityError UNIQUE_authors_name), w)
    else (Ok tt,
          set_authors
            {| rows := map (fun r => if id_is p (a_id r)
                                     then {| a_id := a_id r; a_name := name |}
                                     else r) (rows t);
               seq := seq t |} w).

(** UPDATE magazines SET name = ? WHERE id = ?, then commit. *)
Definition update_magazine_name (name : string) (p : option Z) : M world unit :=
  fun w =>
    let t := magazines w in
    if existsb (fun r => id_is p (m_id r)) (rows t)
       && existsb (fun r => negb (id_is p (m_id r)) && String.eqb (m_name r) name)
                  (rows t)
    then (Raise (IntegrityError UNIQUE_magazines_name), w)
    else (Ok tt,
          set_magazines
            {| rows := map (fun r => if id_is p (m_id r)
                                     then {| m_id := m_id r; m_name := name;
                                             m_category := m_category r |}
                                     else r) (rows t);
               seq := seq t |} w).

(** UPDATE magazines SET category = ? WHERE id = ?, then commit.  The CHECK
    on [category] is evaluated for each row the statement updates. *)
Definition update_magazine_category (category : string) (p : option Z)
  : M world unit :=
  fun w =>
    let t := magazines w in
    if existsb (fun r => id_is p (m_id r)) (rows t)
       && negb (0 <? sqlite_length category)
    then (Raise (IntegrityError CHECK_magazines_category), w)
    else (Ok tt,
          set_magazines
            {| rows := map (fun r => if id_is p (m_id r)
                                     then {| m_id := m_id r; m_name := m_name r;
                                             m_category := category |}
                                     else r) (rows t);
               seq := seq t |} w).

(** The [name] property of an author. *)
Definition Author_get_name : method Author (option string) :=
  o <- self ;;
  (if falsy_attr (Author_name o)
   then
     result <- on_world (call_fetch_data 3 (select_author_name (Author_id o))) ;;
     match result with
     | Some n => assign (fun o => {| Author_id := Author_id o;
                                     Author_name := Some n |})
     | None => raise (ValueError Author_row_gone)
     end
   else ret tt) ;;;
  o' <- self ;;
  ret (Author_name o').

(** The setter of the [name] property of an author. *)
Definition Author_set_name (new_name : pyval) : method Author unit :=
  n <- require (str_non_blank new_name) (ValueError Name_must_be_non_empty) ;;
  o <- self ;;
  on_world get_db_connection ;;;
  on_world (update_author_name (strip n) (Author_id o)) ;;;
  assign (fun o => {| Author_id := Author_id o; Author_name := Some (strip n) |}).

(** The setter of the [id] property of an author. *)
Definition Author_set_id (new_id : pyval) : method Author unit :=
  i <- require (positive_int new_id) (ValueError ID_must_be_positive) ;;
  assign (fun o => {| Author_id := Some i; Author_name := Author_name o |}).

(** The setter of the [name] property of a magazine. *)
Definition Magazine_set_name (new_name : pyval) : method Magazine unit :=
  n <- require (str_2_to_16 new_name) (ValueError Name_must_be_2_to_16) ;;
  o <- self ;;
  on_world get_db_connection ;;;
  on_world (update_magazine_name n (Magazine_id o)) ;;;
  assign (fun o => {| Magazine_id := Magazine_id o; Magazine_name := Some n;
                      Magazine_category := Magazine_category o |}).

(** The setter of the [category] property of a magazine. *)
Definition Magazine_set_category (new_category : pyval) : method Magazine unit :=
  c <- require (str_non_empty new_category)
         (ValueError Category_must_be_non_empty) ;;
  o <- self ;;
  on_world get_db_connection ;;;
  on_world (update_magazine_category c (Magazine_id o)) ;;;
  assign (fun o => {| Magazine_id := Magazine_id o;
                      Magazine_name := Magazine_name o;
                      Magazine_category := Some c |}).

(** The [author] property of an article. *)
Definition Article_author : method Article Author :=
  o <- self ;;
  on_world (Author_get (py_of_id (Article_author_id o))).

(** The [magazine] property of an article. *)
Definition Article_magazine : method Article Magazine :=
  o <- self ;;
  on_world (Magazine_get (py_of_id (Article_magazine_id o))).

(* ================================================================= *)
(** ** Runs on small stores *)

Definition fresh : world :=
  {| online := true; foreign_keys := true;
     authors := empty_table; magazines := empty_table; articles := empty_table;
     stdout := [] |}.

Definition unplugged (w : world) : world :=
  {| online := false; foreign_keys := foreign_keys w; authors := authors w;
     magazines := magazines w; articles := articles w; stdout := stdout w |}.

(** Jane Doe (1) with two articles in Tech Weekly (1) and one in Vogue (2),
    Bob (2) with one article in Tech Weekly. *)
Definition newsroom : world :=
  {| online := true; foreign_keys := true;
     authors := {| rows := [ {| a_id := 1; a_name := "Jane Doe" |};
                             {| a_id := 2; a_name := "Bob" |} ]; seq := 2 |};
     magazines := {| rows := [ {| m_id := 1; m_name := "Tech Weekly";
                                  m_category := "Technology" |};
                               {| m_id := 2; m_name := "Vogue";
                                  m_category := "Fashion" |} ]; seq := 2 |};
     articles := {| rows := [ {| r_id := 1; r_title := "A Great Title Here";
                                 r_content := "Some content body";
                                 r_author_id := 1; r_magazine_id := 1 |};
                              {| r_id := 2; r_title := "Second piece";
                                 r_content := "More"; r_author_id := 1;
                                 r_magazine_id := 1 |};
                              {| r_id := 3; r_title := "Hemlines";
                                 r_content := "Up"; r_author_id := 1;
                                 r_magazine_id := 2 |};
                              {| r_id := 4; r_title := "Compilers";
                                 r_content := "Fast"; r_author_id := 2;
                                 r_magazine_id := 1 |} ]; seq := 4 |};
     stdout := [] |}.

(* ================================================================= *)
(** ** What the schema and the three classes keep true of a store *)

(** The primary keys and UNIQUE columns of [create_tables], the positive
    rowids AUTOINCREMENT gives, and the author names as [Author.create]
    writes them: stripped and not empty. *)
Record consistent (w : world) : Prop :=
  { authors_pk : NoDup (map a_id (rows (authors w)));
    authors_unique_name : NoDup (map a_name (rows (authors w)));
    authors_stripped :
      Forall (fun r => strip (a_name r) = a_name r /\ a_name r <> "")
             (rows (authors w));
    magazines_pk : NoDup (map m_id (rows (magazines w)));
    magazines_pk_positive : Forall (fun r => 0 < m_id r) (rows (magazines w));
    magazines_unique_name : NoDup (map m_name (rows (magazines w))) }.




Definition Magazine_of_row (r : magazine_row) : Magazine :=
  {| Magazine_id := Some (m_id r); Magazine_name := Some (m_name r);
     Magazine_category := Some (m_category r) |}.

Definition Author_of_row (r : author_row) : Author :=
  {| Author_id := Some (a_id r); Author_name := Some (a_name r) |}.

Definition Article_of_row (r : article_row) : Article :=
  {| Article_id := Some (r_id r); Article_title := Some (r_title r);
     Article_content := Some (r_content r);
     Article_author_id := Some (r_author_id r);
     Article_magazine_id := Some (r_magazine_id r) |}.

(** The rowids of [authors] are positive, as AUTOINCREMENT gives them. *)
Definition authors_positive (w : world) : Prop :=
  Forall (fun r => 0 < a_id r) (rows (authors w)).

(** The primary key of [articles]. *)
Definition articles_pk (w : world) : Prop :=
  NoDup (map r_id (rows (articles w))).

(** The tables of two stores hold the same rows, whatever was printed. *)
Definition same_tables (w w' : world) : Prop :=
  authors w' = authors w /\ magazines w' = magazines w
  /\ articles w' = articles w.


Definition magazines_room (w : world) : Prop :=
  next_rowid (seq (magazines w)) (map m_id (rows (magazines w))) <= max_int64.



(* ================================================================= *)
(** ** Facts about strings *)

Lemma len_nonneg (s : string) : 0 <= len s.
Proof. unfold len. lia. Qed.

Lemma len_zero (s : string) : len s = 0 <-> s = "".
Proof.
  unfold len. destruct s; simpl; split; intro H; try reflexivity; try lia.
  discriminate.
Qed.

Lemma lstrip_all_space (s : string) : all_space s = true -> lstrip s = "".
Proof.
  induction s as [|c r IH]; simpl; [reflexivity|].
  intro H. apply andb_true_iff in H. destruct H as [Hc Hr].
  rewrite Hc. auto.
Qed.

Lemma strip_all_space (s : string) : all_space s = true -> strip s = "".
Proof. intro H. unfold strip. rewrite (lstrip_all_space s H). reflexivity. Qed.

Lemma rstrip_empty_all_space (s : string) : rstrip s = "" -> all_space s = true.
Proof.
  induction s as [|c r IH]; simpl; [reflexivity|].
  destruct (rstrip r) eqn:E.
  - destruct (isspace c); [intros _; simpl; auto | discriminate].
  - discriminate.
Qed.

Lemma lstrip_head (s : string) :
  lstrip s = "" \/ exists c r, lstrip s = String c r /\ isspace c = false.
Proof.
  induction s as [|c r IH]; simpl; [now left|].
  destruct (isspace c) eqn:E; [exact IH|].
  right. exists c, r. split; [reflexivity | exact E].
Qed.

Lemma rstrip_idempotent (s : string) : rstrip (rstrip s) = rstrip s.
Proof.
  induction s as [|c r IH]; simpl; [reflexivity|].
  destruct (rstrip r) as [|d t] eqn:E.
  - destruct (isspace c) eqn:Ec; simpl; [reflexivity|]. rewrite Ec. reflexivity.
  - change (rstrip (String c (String d t)) = String c (String d t)).
    change (rstrip (String c (String d t)))
      with (match rstrip (String d t) with
            | EmptyString => if isspace c then EmptyString else String c EmptyString
            | r' => String c r'
            end).
    rewrite IH. reflexivity.
Qed.

Lemma rstrip_head (c : ascii) (r : string) :
  isspace c = false -> exists t, rstrip (String c r) = String c t.
Proof.
  intro H. simpl. destruct (rstrip r); rewrite ?H; eauto.
Qed.

Lemma strip_idempotent (s : string) : strip (strip s) = strip s.
Proof.
  unfold strip. destruct (lstrip_head s) as [E | (c & r & E & Hc)].
  - rewrite E. reflexivity.
  - rewrite E. destruct (rstrip_head c r Hc) as [t Et].
    rewrite Et. simpl lstrip. rewrite Hc. rewrite <- Et.
    apply rstrip_idempotent.
Qed.

Lemma strip_empty : strip "" = "".
Proof. reflexivity. Qed.

Lemma eqb_empty_false (s : string) : s <> "" -> String.eqb s "" = false.
Proof. intro H. apply String.eqb_neq. exact H. Qed.

Lemma str_non_blank_strip (s : string) :
  strip s <> "" -> str_non_blank (PyStr s) = Some s.
Proof.
  intro H. unfold str_non_blank.
  destruct (len (strip s) =? 0) eqn:E; [|reflexivity].
  apply Z.eqb_eq in E. apply len_zero in E. contradiction.
Qed.

Lemma truthy_strip (s : string) : strip s <> "" -> truthy (PyStr s) = true.
Proof.
  intro H. simpl. destruct (String.eqb s "") eqn:E; [|reflexivity].
  apply String.eqb_eq in E. subst s. contradiction H. reflexivity.
Qed.

(* ================================================================= *)
(** ** Facts about lists: keys, DISTINCT, joins *)

Section Keys.
Context {R K : Type} (key : R -> K) (eqb : K -> K -> bool).
Hypothesis eqb_spec : forall a b, eqb a b = true <-> a = b.

Lemma key_injective (l : list R) (x y : R) :
  NoDup (map key l) -> In x l -> In y l -> key x = key y -> x = y.
Proof.
  induction l as [|z l IH]; simpl; [tauto|].
  intros HN Hx Hy E. inversion HN as [|? ? Hnot HN']; subst.
  destruct Hx as [-> | Hx], Hy as [-> | Hy]; auto.
  - exfalso. apply Hnot. rewrite E. now apply in_map.
  - exfalso. apply Hnot. rewrite <- E. now apply in_map.
Qed.

Lemma find_by_key (l : list R) (x : R) :
  NoDup (map key l) -> In x l ->
  find (fun r => eqb (key r) (key x)) l = Some x.
Proof.
  induction l as [|z l IH]; simpl; [tauto|].
  intros HN Hx. inversion HN as [|? ? Hnot HN']; subst.
  destruct (eqb (key z) (key x)) eqn:E.
  - apply eqb_spec in E. destruct Hx as [-> | Hx]; [reflexivity|].
    exfalso. apply Hnot. rewrite E. now apply in_map.
  - destruct Hx as [-> | Hx]; [|auto].
    assert (eqb (key x) (key x) = true) by now apply eqb_spec.
    congruence.
Qed.

Lemma find_none_key (l : list R) (k : K) :
  find (fun r => eqb (key r) k) l = None <-> ~ In k (map key l).
Proof.
  induction l as [|z l IH]; simpl; [tauto|].
  destruct (eqb (key z) k) eqn:E.
  - apply eqb_spec in E. split; [discriminate | intro H; exfalso; auto].
  - rewrite IH. split; [|tauto]. intros H [H1 | H1]; [|tauto].
    apply eqb_spec in H1. congruence.
Qed.

Lemma existsb_key (l : list R) (k : K) :
  existsb (fun r => eqb (key r) k) l = true <-> In k (map key l).
Proof.
  rewrite existsb_exists, in_map_iff. split.
  - intros (x & Hx & E). apply eqb_spec in E. eauto.
  - intros (x & E & Hx). exists x. split; [exact Hx | now apply eqb_spec].
Qed.

End Keys.

Section Distinct.
Context {A : Type} (eqb : A -> A -> bool).
Hypothesis eqb_spec : forall a b, eqb a b = true <-> a = b.

Lemma distinct_In (l : list A) (x : A) : In x (distinct eqb l) <-> In x l.
Proof.
  induction l as [|y l IH]; simpl; [tauto|].
  rewrite filter_In, IH. split.
  - tauto.
  - intros [-> | H]; [now left|].
    destruct (eqb y x) eqn:E.
    + apply eqb_spec in E. now left.
    + right. now split.
Qed.

End Distinct.

Lemma join_In {R C} (col : R -> C) (f : R -> article_row -> bool)
      (t : list R) (arts : list article_row) (c : C) :
  In c (flat_map (fun x => map (fun _ => col x) (filter (f x) arts)) t)
  <-> exists x, In x t /\ col x = c /\ existsb (f x) arts = true.
Proof.
  rewrite in_flat_map. split.
  - intros (x & Hx & Hc). apply in_map_iff in Hc. destruct Hc as (r & E & Hr).
    apply filter_In in Hr. exists x. repeat split; auto.
    apply existsb_exists. exists r. exact Hr.
  - intros (x & Hx & E & Hex). exists x. split; [exact Hx|].
    apply existsb_exists in Hex. destruct Hex as (r & Hr & Hf).
    apply in_map_iff. exists r. split; [exact E|].
    apply filter_In. now split.
Qed.




(* ================================================================= *)
(** ** Running the monad *)

Ltac unfold_monad :=
  unfold construct, method, on_world, self, assign, require, except_ValueError,
    try_except, gets, modify, bind, ret, raise in *.

Lemma get_db_connection_online (w : world) :
  online w = true -> get_db_connection w = (Ok tt, w).
Proof. intro H. unfold get_db_connection. rewrite H. reflexivity. Qed.

Lemma get_db_connection_offline (w : world) :
  online w = false -> get_db_connection w = (Raise OperationalError, w).
Proof. intro H. unfold get_db_connection. rewrite H. reflexivity. Qed.

Lemma mapM_ok {S A B} (f : A -> M S B) (g : A -> B) (l : list A) (s : S) :
  (forall x, In x l -> f x s = (Ok (g x), s)) ->
  mapM f l s = (Ok (map g l), s).
Proof.
  induction l as [|x l IH]; simpl; intro H; [reflexivity|].
  unfold bind. rewrite (H x (or_introl eq_refl)).
  rewrite IH by (intros y Hy; apply H; now right).
  reflexivity.
Qed.

(** The store after an insert is still online. *)
Lemma insert_author_online (n : string) (w w' : world) (r : res Z) :
  insert_author n w = (r, w') -> online w' = online w.
Proof.
  unfold insert_author. cbv zeta.
  destruct (max_int64 <? _); [intro H; inversion H; reflexivity|].
  destruct (existsb _ _); intro H; inversion H; reflexivity.
Qed.

Lemma insert_magazine_online (n c : string) (w w' : world) (r : res Z) :
  insert_magazine n c w = (r, w') -> online w' = online w.
Proof.
  unfold insert_magazine. cbv zeta.
  destruct (max_int64 <? _); [intro H; inversion H; reflexivity|].
  destruct (negb _); [intro H; inversion H; reflexivity|].
  destruct (existsb _ _); intro H; inversion H; reflexivity.
Qed.


Lemma insert_magazine_room (n c : string) (w : world) :
  magazines_room w ->
  insert_magazine n c w
  = if negb (0 <? sqlite_length c)
    then (Raise (IntegrityError CHECK_magazines_category), w)
    else if existsb (fun r => String.eqb (m_name r) n) (rows (magazines w))
    then (Raise (IntegrityError UNIQUE_magazines_name), w)
    else
      let i := next_rowid (seq (magazines w)) (map m_id (rows (magazines w))) in
      (Ok i, set_magazines
               {| rows := rows (magazines w)
                          ++ [{| m_id := i; m_name := n; m_category := c |}];
                  seq := i |} w).
Proof.
  unfold magazines_room, insert_magazine. cbv zeta. intro H.
  destruct (Z.ltb_spec max_int64
              (next_rowid (seq (magazines w)) (map m_id (rows (magazines w)))));
    [lia|reflexivity].
Qed.


Lemma insert_magazine_full (n c : string) (w : world) :
  ~ magazines_room w -> insert_magazine n c w = (Raise OperationalError, w).
Proof.
  unfold magazines_room, insert_magazine. cbv zeta. intro H.
  destruct (Z.ltb_spec max_int64
              (next_rowid (seq (magazines w)) (map m_id (rows (magazines w)))));
    [reflexivity|lia].
Qed.

(* ================================================================= *)
(** ** Author.get and Article.create *)

(** [Author.get] never returns an author: past the check of the id, the
    call of [fetch_data] through the class lacks an argument. *)
Lemma Author_get_raises (author_id : pyval) (w : world) :
  Author_get author_id w
  = (Raise (match positive_int author_id with
            | Some _ => TypeError
            | None => ValueError ID_must_be_positive
            end), w).
Proof.
  unfold Author_get. unfold_monad.
  destruct (positive_int author_id); reflexivity.
Qed.

(** Creating an article never reaches the INSERT: the store is as before. *)
Lemma new_Article_leaves_store (title content author_id magazine_id : pyval)
      (w : world) :
  snd (new_Article None title content author_id magazine_id w) = w.
Proof.
  unfold new_Article, Article_init, Article_create. unfold_monad. simpl.
  destruct (str_5_to_50 title); [|reflexivity].
  destruct (str_non_blank content); [|reflexivity].
  destruct (positive_int author_id) eqn:Ea; [|reflexivity].
  destruct (positive_int magazine_id); [|reflexivity].
  rewrite Author_get_raises, Ea. reflexivity.
Qed.

Lemma new_Article_valid_raises_TypeError
      (title content author_id magazine_id : pyval) (t c : string) (a m : Z)
      (w : world) :
  str_5_to_50 title = Some t ->
  str_non_blank content = Some c ->
  positive_int author_id = Some a ->
  positive_int magazine_id = Some m ->
  new_Article None title content author_id magazine_id w = (Raise TypeError, w).
Proof.
  intros Ht Hc Ha Hm.
  unfold new_Article, Article_init, Article_create. unfold_monad. simpl.
  rewrite Ht, Hc, Ha, Hm, Author_get_raises, Ha. reflexivity.
Qed.

(** C1 — an article naming an author (or a magazine) that has no row should
    fail with the validation error naming the missing id.  Run on a store
    without author 7 and without magazine 9, the construction ends with
    [TypeError], which is no validation error; no article row is inserted. *)
Theorem C1_missing_reference_raises_TypeError :
  select_author (Some 7) newsroom = None
  /\ select_magazine (Some 9) newsroom = None
  /\ new_Article None (PyStr "A Great Title Here") (PyStr "Some content body")
       (PyInt 7) (PyInt 1) newsroom
     = (Raise TypeError, newsroom)
  /\ new_Article None (PyStr "A Great Title Here") (PyStr "Some content body")
       (PyInt 1) (PyInt 9) newsroom
     = (Raise TypeError, newsroom)
  /\ classify TypeError <> ValidationError
  /\ classify (ValueError (Author_does_not_exist 7)) = ValidationError.
Proof.
  repeat split; try reflexivity. discriminate.
Qed.

(** C5 — with valid content and references to rows that exist, a title of
    4 or of 51 characters is rejected with the validation error; a title of
    exactly 5 or exactly 50 characters should be accepted, and the
    construction ends with [TypeError] instead. *)
Theorem C5_title_bounds :
  let title n := PyStr (String.concat "" (repeat "x" n)) in
  let make t := new_Article None t (PyStr "Some content body")
                  (PyInt 1) (PyInt 1) newsroom in
  select_author (Some 1) newsroom = Some (1, "Jane Doe")
  /\ select_magazine (Some 1) newsroom = Some (1, "Tech Weekly", "Technology")
  /\ make (title 4%nat) = (Raise (ValueError Title_must_be_5_to_50), newsroom)
  /\ make (title 51%nat) = (Raise (ValueError Title_must_be_5_to_50), newsroom)
  /\ classify (ValueError Title_must_be_5_to_50) = ValidationError
  /\ make (title 5%nat) = (Raise TypeError, newsroom)
  /\ make (title 50%nat) = (Raise TypeError, newsroom).
Proof.
  repeat split; vm_compute; reflexivity.
Qed.

(** C10 — the title is measured before it is stripped: "  a  " has five
    characters and passes the check of the title, and the INSERT would get
    the one-character "a", which the CHECK of the schema refuses.  The
    construction should reach that INSERT; it ends with [TypeError] before,
    and the store is never asked to insert. *)
Theorem C10_untrimmed_title_never_inserted :
  str_5_to_50 (PyStr "  a  ") = Some "  a  "
  /\ strip "  a  " = "a"
  /\ insert_article (strip "  a  ") (strip "Some content body") 1 1 newsroom
     = (Raise (IntegrityError CHECK_articles_title), newsroom)
  /\ new_Article None (PyStr "  a  ") (PyStr "Some content body")
       (PyInt 1) (PyInt 1) newsroom
     = (Raise TypeError, newsroom).
Proof.
  repeat split; vm_compute; reflexivity.
Qed.

(* ================================================================= *)
(** ** Article.content *)

Lemma str_non_blank_all_space (s : string) :
  all_space s = true -> str_non_blank (PyStr s) = None.
Proof.
  intro H. unfold str_non_blank. rewrite (strip_all_space s H). reflexivity.
Qed.

(** C6 — setting the content of any article to a string made of whitespace
    only (the empty string included) raises the validation error before any
    statement is run: the stored rows and the object, its cached content
    included, are as before. *)
Theorem C6_blank_content_rejected (o : Article) (w : world) (s : string) :
  all_space s = true ->
  Article_set_content (PyStr s) (o, w)
  = (Raise (ValueError Content_must_be_non_empty), (o, w))
  /\ classify (ValueError Content_must_be_non_empty) = ValidationError.
Proof.
  intro H. split; [|reflexivity].
  unfold Article_set_content. unfold_monad.
  rewrite (str_non_blank_all_space s H). reflexivity.
Qed.

Lemma C6_blank_content_rejected_witness :
  let o := {| Article_id := Some 1; Article_title := Some "A Great Title Here";
              Article_content := Some "Some content body";
              Article_author_id := Some 1; Article_magazine_id := Some 1 |} in
  all_space "   " = true
  /\ Article_set_content (PyStr "   ") (o, newsroom)
     = (Raise (ValueError Content_must_be_non_empty), (o, newsroom)).
Proof.
  split; [reflexivity|].
  apply (C6_blank_content_rejected _ newsroom "   "). reflexivity.
Defined.

(* ================================================================= *)
(** ** Magazine: the lazy accessors *)

Lemma Magazine_load_by_id_found (o : Magazine) (w : world) (i : Z)
      (n c : string) :
  0 < i -> online w = true ->
  select_magazine_name_category (Some i) w = Some (n, c) ->
  Magazine_load_by_id (PyInt i) (o, w)
  = (Ok tt, ({| Magazine_id := Some i; Magazine_name := Some n;
                Magazine_category := Some c |}, w)).
Proof.
  intros Hi Hon Hrow. unfold Magazine_load_by_id, positive_int. unfold_monad.
  apply Z.ltb_lt in Hi. rewrite Hi. cbn [fst snd].
  rewrite (get_db_connection_online w Hon). cbn [fst snd].
  rewrite Hrow. reflexivity.
Qed.

(** C8 — when the cached name of a magazine is falsy, reading [name] loads
    the row of its id: the name returned and cached is the stored one, and
    the cached category is replaced by the stored one as well.  Likewise a
    falsy cached category makes [category] reload both fields. *)
Theorem C8_accessor_reloads_whole_row (o : Magazine) (w : world) (i : Z)
        (n c : string) :
  online w = true ->
  Magazine_id o = Some i ->
  0 < i ->
  select_magazine_name_category (Some i) w = Some (n, c) ->
  (falsy_attr (Magazine_name o) = true ->
   Magazine_get_name (o, w)
   = (Ok (Some n), ({| Magazine_id := Some i; Magazine_name := Some n;
                       Magazine_category := Some c |}, w)))
  /\ (falsy_attr (Magazine_category o) = true ->
      Magazine_get_category (o, w)
      = (Ok (Some c), ({| Magazine_id := Some i; Magazine_name := Some n;
                          Magazine_category := Some c |}, w))).
Proof.
  intros Hon Hid Hi Hrow.
  pose proof (Magazine_load_by_id_found o w i n c Hi Hon Hrow) as L.
  split; intro Hf.
  - unfold Magazine_get_name. unfold_monad. simpl. rewrite Hf, Hid. simpl.
    unfold method in L. rewrite L. reflexivity.
  - unfold Magazine_get_category. unfold_monad. simpl. rewrite Hf, Hid. simpl.
    unfold method in L. rewrite L. reflexivity.
Qed.

Lemma C8_accessor_reloads_whole_row_witness :
  let stale := {| Magazine_id := Some 1; Magazine_name := Some "";
                  Magazine_category := Some "Cooking" |} in
  let loaded := {| Magazine_id := Some 1; Magazine_name := Some "Tech Weekly";
                   Magazine_category := Some "Technology" |} in
  Magazine_get_name (stale, newsroom) = (Ok (Some "Tech Weekly"), (loaded, newsroom)).
Proof.
  apply (C8_accessor_reloads_whole_row _ newsroom 1 "Tech Weekly" "Technology");
    simpl; try reflexivity.
Defined.

(** A cached field that is not falsy is returned as it is, without a load. *)
Lemma Magazine_get_name_cached (o : Magazine) (w : world) :
  falsy_attr (Magazine_name o) = false ->
  Magazine_get_name (o, w) = (Ok (Magazine_name o), (o, w)).
Proof.
  intro H. unfold Magazine_get_name. unfold_monad. simpl. rewrite H. reflexivity.
Qed.

(* ================================================================= *)
(** ** Author.__init__: which arguments are given *)

Lemma C9_both_supplied_is_accepted :
  is_None (PyInt 1) = false
  /\ truthy (PyStr "Bob") = true
  /\ new_Author (PyInt 1) (PyStr "Bob") newsroom
     = (Ok {| Author_id := Some 1; Author_name := Some "Jane Doe" |}, newsroom).
Proof. repeat split. Qed.

(** C9 (amended) — with neither an id nor a truthy name the construction
    raises the validation error and writes nothing; with an id, the id
    branch is taken whatever the name argument is, so giving both is
    accepted and the name is ignored. *)
Theorem C9_neither_rejected_id_wins (w : world) (id name : pyval) :
  (is_None id = true -> truthy name = false ->
   new_Author id name w = (Raise (ValueError Author_needs_id_or_name), w)
   /\ classify (ValueError Author_needs_id_or_name) = ValidationError)
  /\ (is_None id = false -> new_Author id name w = new_Author id PyNone w).
Proof.
  split.
  - intros Hid Hname. split; [|reflexivity].
    unfold new_Author, Author_init. unfold_monad. simpl.
    rewrite Hid, Hname. reflexivity.
  - intro Hid. unfold new_Author, Author_init. unfold_monad. simpl.
    rewrite Hid. reflexivity.
Qed.

Lemma C9_neither_rejected_id_wins_witness :
  new_Author PyNone (PyStr "") newsroom
  = (Raise (ValueError Author_needs_id_or_name), newsroom)
  /\ new_Author (PyInt 1) (PyStr "Bob") newsroom = new_Author (PyInt 1) PyNone newsroom.
Proof.
  split.
  - apply (proj1 (C9_neither_rejected_id_wins newsroom PyNone (PyStr "")));
      reflexivity.
  - apply (proj2 (C9_neither_rejected_id_wins newsroom (PyInt 1) (PyStr "Bob")));
      reflexivity.
Defined.

(* ================================================================= *)
(** ** The relationship queries when the store fails *)






(* ================================================================= *)
(** ** Reuse on create *)

Lemma existsb_find {A} (f : A -> bool) (l : list A) :
  existsb f l = match find f l with Some _ => true | None => false end.
Proof.
  induction l as [|x l IH]; simpl; [reflexivity|].
  destruct (f x); simpl; auto.
Qed.

Lemma find_all_false {A} (f : A -> bool) (l : list A) :
  (forall x, In x l -> f x = false) -> find f l = None.
Proof.
  induction l as [|x l IH]; simpl; intro H; [reflexivity|].
  rewrite (H x (or_introl eq_refl)). apply IH. intros y Hy. apply H. now right.
Qed.



Lemma sqlite_length_positive (s : string) :
  0 < sqlite_length s -> s <> "" /\ str_non_empty (PyStr s) = Some s.
Proof.
  destruct s as [|c r]; simpl; [lia|].
  intros _. split; [discriminate|].
  unfold len. simpl String.length.
  destruct (Z.of_nat (S (String.length r)) =? 0) eqn:E; [|reflexivity].
  apply Z.eqb_eq in E. lia.
Qed.

Lemma str_2_to_16_truthy (n : string) :
  str_2_to_16 (PyStr n) = Some n -> truthy (PyStr n) = true.
Proof.
  destruct n as [|c r]; [|reflexivity]. vm_compute. discriminate.
Qed.

(** The first construction of a magazine, by the outcome of the look-up. *)
Lemma new_Magazine_by_fields (w : world) (n c : string) :
  online w = true ->
  str_2_to_16 (PyStr n) = Some n ->
  0 < sqlite_length c ->
  new_Magazine PyNone (PyStr n) (PyStr c) w
  = match select_magazine_id n c w with
    | Some i => (Ok {| Magazine_id := Some i; Magazine_name := Some n;
                       Magazine_category := Some c |}, w)
    | None =>
        match insert_magazine n c w with
        | (Ok i, w') => (Ok {| Magazine_id := Some i; Magazine_name := Some n;
                               Magazine_category := Some c |}, w')
        | (Raise e, w') => (Raise e, w')
        end
    end.
Proof.
  intros Hon Hn Hc.
  destruct (sqlite_length_positive c Hc) as [Hne Hcat].
  unfold new_Magazine, Magazine_init, Magazine_create. unfold_monad.
  cbn [is_None negb fst snd].
  rewrite (str_2_to_16_truthy n Hn).
  assert (truthy (PyStr c) = true) as ->
      by (simpl; rewrite (eqb_empty_false c Hne); reflexivity).
  cbn [andb]. rewrite Hn, Hcat. cbn [fst snd].
  rewrite (get_db_connection_online w Hon). cbn [fst snd].
  destruct (select_magazine_id n c w); [reflexivity|]. cbn [fst snd].
  destruct (insert_magazine n c w) as [[i|e] w']; reflexivity.
Qed.

(** A stored name with another category: the look-up on the pair finds no
    row, and the INSERT collides on the name when the key has room. *)
Lemma other_category_not_found (w : world) (r : magazine_row) (c' : string) :
  consistent w ->
  In r (rows (magazines w)) ->
  c' <> m_category r ->
  select_magazine_id (m_name r) c' w = None.
Proof.
  intros Hw Hr Hneq.
  unfold select_magazine_id. rewrite find_all_false; [reflexivity|].
  intros x Hx. apply andb_false_iff.
  destruct (String.eqb (m_name x) (m_name r)) eqn:E; [right | now left].
  apply String.eqb_eq in E.
  rewrite (key_injective m_name _ x r (magazines_unique_name w Hw) Hx Hr E).
  apply String.eqb_neq. congruence.
Qed.

Lemma insert_magazine_collides (w : world) (r : magazine_row) (c' : string) :
  magazines_room w ->
  In r (rows (magazines w)) ->
  0 < sqlite_length c' ->
  insert_magazine (m_name r) c' w
  = (Raise (IntegrityError UNIQUE_magazines_name), w).
Proof.
  intros Hroom Hr Hc.
  rewrite (insert_magazine_room _ _ w Hroom).
  apply Z.ltb_lt in Hc. rewrite Hc. cbn [negb].
  assert (existsb (fun x => String.eqb (m_name x) (m_name r)) (rows (magazines w))
          = true) as ->.
  { apply existsb_exists. exists r. split; [exact Hr | apply String.eqb_refl]. }
  reflexivity.
Qed.




Lemma newsroom_consistent : consistent newsroom.
Proof.
  constructor; simpl;
    repeat (constructor; simpl; try (intuition (discriminate || lia)));
    try (intuition (discriminate || lia)).
Qed.


(** The construction of an author from a name, by the outcome of the
    look-up of the stripped name. *)
Lemma new_Author_by_name (w : world) (n : string) :
  online w = true ->
  strip n <> "" ->
  new_Author PyNone (PyStr n) w
  = match select_author_id (strip n) w with
    | Some i => (Ok {| Author_id := Some i; Author_name := Some (strip n) |}, w)
    | None =>
        match insert_author (strip n) w with
        | (Ok i, w') =>
            (Ok {| Author_id := Some i; Author_name := Some (strip n) |}, w')
        | (Raise e, w') => (Raise e, w')
        end
    end.
Proof.
  intros Hon Hn.
  unfold new_Author, Author_init, Author_create, call_fetch_data, fetch_data.
  unfold_monad. cbn [is_None negb fst snd Nat.eqb].
  rewrite (truthy_strip n Hn), (str_non_blank_strip n Hn). cbn [fst snd].
  rewrite (get_db_connection_online w Hon). cbn [fst snd].
  destruct (select_author_id (strip n) w); [reflexivity|]. cbn [fst snd].
  rewrite (get_db_connection_online w Hon). cbn [fst snd].
  destruct (insert_author (strip n) w) as [[i|e] w']; reflexivity.
Qed.











Lemma fresh_consistent : consistent fresh.
Proof. constructor; simpl; constructor. Qed.


(* ================================================================= *)
(** ** The joins: each related entity once *)







Lemma new_Magazine_by_id (w : world) (i : Z) (name category : pyval)
      (n c : string) :
  0 < i -> online w = true ->
  select_magazine_name_category (Some i) w = Some (n, c) ->
  new_Magazine (PyInt i) name category w
  = (Ok {| Magazine_id := Some i; Magazine_name := Some n;
           Magazine_category := Some c |}, w).
Proof.
  intros Hi Hon Hrow. unfold new_Magazine, Magazine_init.
  pose proof (Magazine_load_by_id_found
                {| Magazine_id := None; Magazine_name := None;
                   Magazine_category := None |} w i n c Hi Hon Hrow) as L.
  unfold_monad. cbn [is_None negb fst snd]. rewrite L. reflexivity.
Qed.

Lemma select_magazine_row (w : world) (m : magazine_row) :
  consistent w -> In m (rows (magazines w)) ->
  select_magazine_name_category (Some (m_id m)) w = Some (m_name m, m_category m).
Proof.
  intros Hw Hm. unfold select_magazine_name_category, id_is.
  rewrite (find_by_key m_id Z.eqb Z.eqb_eq _ m (magazines_pk w Hw) Hm).
  reflexivity.
Qed.

Lemma select_author_row (w : world) (a : author_row) :
  consistent w -> In a (rows (authors w)) ->
  select_author_id (a_name a) w = Some (a_id a).
Proof.
  intros Hw Ha. unfold select_author_id.
  rewrite (find_by_key a_name String.eqb String.eqb_eq _ a
             (authors_unique_name w Hw) Ha).
  reflexivity.
Qed.


Lemma contributor_names_In (w : world) (p : option Z) (n : string) :
  In n (select_contributor_names p w)
  <-> exists a, In a (rows (authors w)) /\ a_name a = n
                /\ existsb (fun r => (r_author_id r =? a_id a)
                                     && id_is p (r_magazine_id r))
                           (rows (articles w)) = true.
Proof.
  unfold select_contributor_names.
  rewrite (distinct_In String.eqb String.eqb_eq).
  apply (join_In a_name).
Qed.


Lemma Magazine_contributors_run (w : world) (m : Magazine) :
  consistent w -> online w = true ->
  Magazine_contributors (m, w)
  = (Ok (map (fun n => {| Author_id := select_author_id n w;
                          Author_name := Some n |})
             (select_contributor_names (Magazine_id m) w)), (m, w)).
Proof.
  intros Hw Hon. unfold Magazine_contributors. unfold_monad. cbn [fst snd].
  rewrite (get_db_connection_online w Hon). cbn [fst snd].
  rewrite (mapM_ok _ (fun n => {| Author_id := select_author_id n w;
                                  Author_name := Some n |})); [reflexivity|].
  intros n Hn. apply contributor_names_In in Hn.
  destruct Hn as (a & Ha & <- & _).
  pose proof (authors_stripped w Hw) as P. rewrite Forall_forall in P.
  destruct (P a Ha) as [Hs Hne].
  rewrite (new_Author_by_name w (a_name a) Hon) by (rewrite Hs; exact Hne).
  rewrite Hs, (select_author_row w a Hw Ha). reflexivity.
Qed.





(* ================================================================= *)
(** ** Consistency is kept by the layer *)

Lemma fold_max_bound (j : Z) (r : list Z) (i : Z) :
  In i (j :: r) -> i <= fold_right Z.max j r.
Proof.
  induction r as [|k r IH]; simpl.
  - intros [-> | []]. lia.
  - intros [-> | [-> | H]].
    + specialize (IH (or_introl eq_refl)). lia.
    + lia.
    + specialize (IH (or_intror H)). lia.
Qed.

Lemma max_rowid_bound (ids : list Z) (i : Z) :
  In i ids -> exists m, max_rowid ids = Some m /\ i <= m.
Proof.
  destruct ids as [|j r]; [simpl; tauto|].
  intro H. eexists. split; [reflexivity|]. now apply fold_max_bound.
Qed.

Lemma next_rowid_fresh (sq : Z) (ids : list Z) (i : Z) :
  In i ids -> i < next_rowid sq ids.
Proof.
  intro H. destruct (max_rowid_bound ids i H) as (m & E & Hm).
  unfold next_rowid. rewrite E. lia.
Qed.

Lemma next_rowid_positive (sq : Z) (ids : list Z) :
  Forall (fun i => 0 < i) ids -> 0 < next_rowid sq ids.
Proof.
  intro H. unfold next_rowid. destruct ids as [|j r]; simpl max_rowid; [lia|].
  destruct (max_rowid_bound (j :: r) j (or_introl eq_refl)) as (m & E & Hm).
  simpl max_rowid in E. injection E as <-.
  inversion H; subst. lia.
Qed.

Lemma NoDup_snoc {A} (l : list A) (x : A) :
  NoDup l -> ~ In x l -> NoDup (l ++ [x]).
Proof.
  intros HN Hx. apply NoDup_app; [exact HN | repeat constructor; simpl; tauto |].
  intros y Hy [<- | []]. contradiction.
Qed.

Lemma insert_author_consistent (n : string) (w w' : world) (r : res Z) :
  consistent w -> strip n = n -> n <> "" ->
  insert_author n w = (r, w') -> consistent w'.
Proof.
  intros Hw Hs Hne. unfold insert_author. cbv zeta.
  destruct (max_int64 <? _); [intro H; inversion H; subst; exact Hw|].
  destruct (existsb _ _) eqn:Ex; intro H; inversion H; subst; [exact Hw|].
  destruct Hw as [H1 H2 H3 H4 H5 H6].
  constructor; cbn [authors magazines set_authors rows]; auto.
  - rewrite map_app. apply NoDup_snoc; [exact H1|]. simpl. intro Hin.
    pose proof (next_rowid_fresh (seq (authors w)) _ _ Hin). lia.
  - rewrite map_app. apply NoDup_snoc; [exact H2|]. simpl.
    intro Hin. apply (existsb_key a_name String.eqb String.eqb_eq) in Hin.
    congruence.
  - apply Forall_app. split; [exact H3|]. repeat constructor; simpl; auto.
Qed.

Lemma insert_magazine_consistent (n c : string) (w w' : world) (r : res Z) :
  consistent w -> insert_magazine n c w = (r, w') -> consistent w'.
Proof.
  intros Hw. unfold insert_magazine. cbv zeta.
  destruct (max_int64 <? _); [intro H; inversion H; subst; exact Hw|].
  destruct (negb _); [intro H; inversion H; subst; exact Hw|].
  destruct (existsb _ _) eqn:Ex; intro H; inversion H; subst; [exact Hw|].
  destruct Hw as [H1 H2 H3 H4 H5 H6].
  constructor; cbn [authors magazines set_magazines rows]; auto.
  - rewrite map_app. apply NoDup_snoc; [exact H4|]. simpl. intro Hin.
    pose proof (next_rowid_fresh (seq (magazines w)) _ _ Hin). lia.
  - apply Forall_app. split; [exact H5|]. repeat constructor. simpl.
    apply next_rowid_positive. rewrite Forall_map. exact H5.
  - rewrite map_app. apply NoDup_snoc; [exact H6|]. simpl.
    intro Hin. apply (existsb_key m_name String.eqb String.eqb_eq) in Hin.
    congruence.
Qed.

Lemma strip_of_non_blank (v : pyval) (s : string) :
  str_non_blank v = Some s -> strip s <> "".
Proof.
  destruct v as [| |t]; simpl; try discriminate.
  destruct (len (strip t) =? 0) eqn:E; [discriminate|].
  intro H. injection H as <-. intro H0. rewrite H0 in E. discriminate.
Qed.

(** Constructing an author, by id or by name, keeps the store consistent. *)
Lemma new_Author_consistent (id name : pyval) (w w' : world) (r : res Author) :
  consistent w -> new_Author id name w = (r, w') -> consistent w'.
Proof.
  intro Hw.
  unfold new_Author, Author_init, Author_load_by_id, Author_create,
    call_fetch_data, fetch_data, get_db_connection.
  unfold_monad. cbn [fst snd Nat.eqb].
  destruct (is_None id); cbn [negb].
  - destruct (truthy name); [|intro H; inversion H; subst; exact Hw].
    destruct (str_non_blank name) as [s|] eqn:Es;
      [|intro H; inversion H; subst; exact Hw].
    pose proof (strip_of_non_blank name s Es) as Hs. cbn [fst snd].
    destruct (online w) eqn:Hon; cbn [fst snd];
      [|intro H; inversion H; subst; exact Hw].
    destruct (select_author_id (strip s) w); cbn [fst snd];
      [intro H; inversion H; subst; exact Hw|].
    rewrite Hon. cbn [fst snd].
    destruct (insert_author (strip s) w) as [[i|e] w1] eqn:Ei; cbn [fst snd];
      intro H; inversion H; subst;
      apply (insert_author_consistent (strip s) w w' _ Hw
               (strip_idempotent s) Hs Ei).
  - destruct (positive_int id); [|intro H; inversion H; subst; exact Hw].
    cbn [fst snd].
    destruct (online w); cbn [fst snd];
      [|intro H; inversion H; subst; exact Hw].
    destruct (select_author_name (Some z) w);
      intro H; inversion H; subst; exact Hw.
Qed.

(** Constructing a magazine, by id or by fields, keeps the store consistent. *)
Lemma new_Magazine_consistent (id name category : pyval) (w w' : world)
      (r : res Magazine) :
  consistent w -> new_Magazine id name category w = (r, w') -> consistent w'.
Proof.
  intro Hw.
  unfold new_Magazine, Magazine_init, Magazine_load_by_id, Magazine_create,
    get_db_connection.
  unfold_monad. cbn [fst snd].
  destruct (is_None id); cbn [negb].
  - destruct (truthy name && truthy category);
      [|intro H; inversion H; subst; exact Hw].
    destruct (str_2_to_16 name) as [n|];
      [|intro H; inversion H; subst; exact Hw].
    destruct (str_non_empty category) as [c|];
      [|intro H; inversion H; subst; exact Hw].
    cbn [fst snd].
    destruct (online w); cbn [fst snd];
      [|intro H; inversion H; subst; exact Hw].
    destruct (select_magazine_id n c w); cbn [fst snd];
      [intro H; inversion H; subst; exact Hw|].
    destruct (insert_magazine n c w) as [[i|e] w1] eqn:Ei; cbn [fst snd];
      intro H; inversion H; subst;
      apply (insert_magazine_consistent n c w w' _ Hw Ei).
  - destruct (positive_int id); [|intro H; inversion H; subst; exact Hw].
    cbn [fst snd].
    destruct (online w); cbn [fst snd];
      [|intro H; inversion H; subst; exact Hw].
    destruct (select_magazine_name_category (Some z) w) as [[n c]|];
      intro H; inversion H; subst; exact Hw.
Qed.

(** [create_tables] on a store that can be opened leaves three empty
    tables: a consistent store. *)
Lemma create_tables_consistent (w : world) :
  online w = true ->
  exists w', create_tables w = (Ok tt, w') /\ consistent w' /\ online w' = true.
Proof.
  intro Hon. unfold create_tables. unfold_monad.
  rewrite (get_db_connection_online w Hon). cbn [fst snd].
  eexists. split; [reflexivity|]. split.
  - constructor; simpl; constructor.
  - simpl. exact Hon.
Qed.

(* ================================================================= *)
(** ** Author.get, Article.author and the creation of articles *)

(** [Author.get] raises [TypeError] for every positive integer id, whether
    or not the author is stored, and leaves the store as it was. *)
Theorem Author_get_never_returns (i : Z) (w : world) :
  0 < i -> Author_get (PyInt i) w = (Raise TypeError, w).
Proof.
  intro Hi. rewrite Author_get_raises. simpl.
  apply Z.ltb_lt in Hi. rewrite Hi. reflexivity.
Qed.

Lemma Author_get_never_returns_witness :
  select_author (Some 1) newsroom = Some (1, "Jane Doe")
  /\ Author_get (PyInt 1) newsroom = (Raise TypeError, newsroom).
Proof.
  split; [reflexivity|]. apply (Author_get_never_returns 1 newsroom). lia.
Defined.

(** Reading [article.author] never gives an author: it raises [TypeError]
    when the article carries a positive author id and the validation error
    of the id otherwise; neither the article nor the store changes. *)
Theorem Article_author_never_returns (o : Article) (w : world) :
  Article_author (o, w)
  = (Raise (match Article_author_id o with
            | Some i => if 0 <? i then TypeError else ValueError ID_must_be_positive
            | None => ValueError ID_must_be_positive
            end), (o, w)).
Proof.
  unfold Article_author. unfold_monad. cbn [fst snd].
  rewrite Author_get_raises.
  destruct (Article_author_id o) as [i|]; simpl; [|reflexivity].
  destruct (0 <? i); reflexivity.
Qed.

(** Constructing an article from its fields never returns an article and
    never writes: whatever the arguments and the store, it raises either one
    of the validation errors of its arguments or [TypeError]. *)
Theorem new_Article_never_succeeds (title content author_id magazine_id : pyval)
        (w : world) :
  exists e,
    new_Article None title content author_id magazine_id w = (Raise e, w)
    /\ (e = TypeError \/ classify e = ValidationError).
Proof.
  unfold new_Article, Article_init, Article_create. unfold_monad. simpl.
  destruct (str_5_to_50 title); [|eexists; split; [reflexivity | now right]].
  destruct (str_non_blank content); [|eexists; split; [reflexivity | now right]].
  destruct (positive_int author_id) eqn:Ea;
    [|eexists; split; [reflexivity | now right]].
  destruct (positive_int magazine_id);
    [|eexists; split; [reflexivity | now right]].
  rewrite Author_get_raises, Ea. eexists. split; [reflexivity | now left].
Qed.

(* ================================================================= *)
(** ** Loading by id *)

Lemma find_id_is {R} (key : R -> Z) (l : list R) (x : R) :
  NoDup (map key l) -> In x l ->
  find (fun r => id_is (Some (key x)) (key r)) l = Some x.
Proof. apply (find_by_key key Z.eqb Z.eqb_eq). Qed.

Lemma find_id_absent {R} (key : R -> Z) (l : list R) (i : Z) :
  ~ In i (map key l) -> find (fun r => id_is (Some i) (key r)) l = None.
Proof. apply (find_none_key key Z.eqb Z.eqb_eq). Qed.

(** [Article(id=i)] gives the stored fields of row [i], whatever the other
    arguments are, and raises the not-found error when [i] is an integer of
    64 bits that no row has as its id; the store is only read. *)
Theorem Article_load_round_trip (w : world)
        (title content author_id magazine_id : pyval) :
  online w = true ->
  articles_pk w ->
  (forall r, In r (rows (articles w)) ->
     new_Article (Some (r_id r)) title content author_id magazine_id w
     = (Ok (Article_of_row r), w))
  /\ (forall i, binds i -> ~ In i (map r_id (rows (articles w))) ->
        new_Article (Some i) title content author_id magazine_id w
        = (Raise (ValueError (Article_not_in_database i)), w)).
Proof.
  intros Hon Hpk.
  unfold new_Article, Article_init, Article_load_by_id, call_fetch_data,
    fetch_data, select_article.
  unfold_monad. cbn [fst snd Nat.eqb].
  rewrite (get_db_connection_online w Hon). cbn [fst snd]. split.
  - intros r Hr. rewrite (find_id_is r_id _ r Hpk Hr). reflexivity.
  - intros i _ Hi. rewrite (find_id_absent r_id _ i Hi). reflexivity.
Qed.

Lemma newsroom_articles_pk : articles_pk newsroom.
Proof.
  unfold articles_pk. simpl.
  repeat (constructor; [simpl; intuition lia|]). constructor.
Qed.

Lemma Article_load_round_trip_witness :
  new_Article (Some 3) PyNone PyNone PyNone PyNone newsroom
  = (Ok {| Article_id := Some 3; Article_title := Some "Hemlines";
           Article_content := Some "Up"; Article_author_id := Some 1;
           Article_magazine_id := Some 2 |}, newsroom)
  /\ new_Article (Some 9) PyNone PyNone PyNone PyNone newsroom
     = (Raise (ValueError (Article_not_in_database 9)), newsroom).
Proof.
  destruct (Article_load_round_trip newsroom PyNone PyNone PyNone PyNone
              eq_refl newsroom_articles_pk) as [Hfound Habsent].
  split.
  - apply (Hfound {| r_id := 3; r_title := "Hemlines"; r_content := "Up";
                     r_author_id := 1; r_magazine_id := 2 |}).
    simpl. tauto.
  - apply Habsent; [unfold binds, max_int64; lia | simpl; intuition lia].
Defined.

Lemma Magazine_get_found (w : world) (m : magazine_row) :
  consistent w -> online w = true -> In m (rows (magazines w)) ->
  Magazine_get (PyInt (m_id m)) w = (Ok (Magazine_of_row m), w).
Proof.
  intros Hw Hon Hm.
  pose proof (magazines_pk_positive w Hw) as P. rewrite Forall_forall in P.
  pose proof (P m Hm) as Hpos.
  unfold Magazine_get, positive_int, select_magazine. unfold_monad.
  pose proof Hpos as Hb. apply Z.ltb_lt in Hb. rewrite Hb. cbn [fst snd].
  rewrite (get_db_connection_online w Hon). cbn [fst snd].
  rewrite (find_id_is m_id _ m (magazines_pk w Hw) Hm). cbn [option_map].
  apply (new_Magazine_by_id w (m_id m) _ _ (m_name m) (m_category m) Hpos Hon).
  now apply select_magazine_row.
Qed.

Lemma Magazine_get_absent (w : world) (i : Z) :
  online w = true -> 0 < i -> ~ In i (map m_id (rows (magazines w))) ->
  Magazine_get (PyInt i) w = (Raise (ValueError (Magazine_not_found i)), w).
Proof.
  intros Hon Hpos Hi.
  unfold Magazine_get, positive_int, select_magazine. unfold_monad.
  apply Z.ltb_lt in Hpos. rewrite Hpos. cbn [fst snd].
  rewrite (get_db_connection_online w Hon). cbn [fst snd].
  rewrite (find_id_absent m_id _ i Hi). reflexivity.
Qed.

(** [Magazine.get] gives the stored name and category of the id, raises the
    not-found error for a positive id of 64 bits without a row and the
    validation error for anything that is not a positive integer; it never
    writes. *)
Theorem Magazine_get_lookup (w : world) :
  consistent w ->
  online w = true ->
  (forall m, In m (rows (magazines w)) ->
     Magazine_get (PyInt (m_id m)) w = (Ok (Magazine_of_row m), w))
  /\ (forall i, 0 < i -> binds i -> ~ In i (map m_id (rows (magazines w))) ->
        Magazine_get (PyInt i) w = (Raise (ValueError (Magazine_not_found i)), w))
  /\ (forall v, positive_int v = None ->
        Magazine_get v w = (Raise (ValueError ID_must_be_positive), w)).
Proof.
  intros Hw Hon. split; [|split].
  - intros m Hm. now apply Magazine_get_found.
  - intros i Hpos _ Hi. now apply Magazine_get_absent.
  - intros v Hv. unfold Magazine_get. unfold_monad. rewrite Hv. reflexivity.
Qed.

Lemma Magazine_get_lookup_witness :
  Magazine_get (PyInt 2) newsroom
  = (Ok {| Magazine_id := Some 2; Magazine_name := Some "Vogue";
           Magazine_category := Some "Fashion" |}, newsroom)
  /\ Magazine_get (PyInt 5) newsroom
     = (Raise (ValueError (Magazine_not_found 5)), newsroom)
  /\ Magazine_get (PyStr "2") newsroom
     = (Raise (ValueError ID_must_be_positive), newsroom).
Proof.
  destruct (Magazine_get_lookup newsroom newsroom_consistent eq_refl)
    as (Hf & Ha & Hv).
  split; [|split].
  - apply (Hf {| m_id := 2; m_name := "Vogue"; m_category := "Fashion" |}).
    simpl. tauto.
  - apply Ha; [lia | unfold binds, max_int64; lia | simpl; intuition lia].
  - apply Hv. reflexivity.
Defined.

(** Reading [article.magazine] queries the store each time: it gives the
    stored magazine of the article's magazine id and raises the not-found
    error when that row is gone; article and store are unchanged. *)
Theorem Article_magazine_follows_store (w : world) (o : Article) (k : Z) :
  consistent w ->
  online w = true ->
  Article_magazine_id o = Some k ->
  0 < k ->
  (forall m, In m (rows (magazines w)) -> m_id m = k ->
     Article_magazine (o, w) = (Ok (Magazine_of_row m), (o, w)))
  /\ (~ In k (map m_id (rows (magazines w))) ->
      Article_magazine (o, w)
      = (Raise (ValueError (Magazine_not_found k)), (o, w))).
Proof.
  intros Hw Hon Hk Hpos. unfold Article_magazine. unfold_monad.
  cbn [fst snd]. rewrite Hk. cbn [py_of_id]. split.
  - intros m Hm <-. rewrite (Magazine_get_found w m Hw Hon Hm). reflexivity.
  - intro Hi. rewrite (Magazine_get_absent w k Hon Hpos Hi). reflexivity.
Qed.

Lemma Article_magazine_follows_store_witness :
  Article_magazine
    ({| Article_id := Some 3; Article_title := Some "Hemlines";
        Article_content := Some "Up"; Article_author_id := Some 1;
        Article_magazine_id := Some 2 |}, newsroom)
  = (Ok {| Magazine_id := Some 2; Magazine_name := Some "Vogue";
           Magazine_category := Some "Fashion" |},
     ({| Article_id := Some 3; Article_title := Some "Hemlines";
         Article_content := Some "Up"; Article_author_id := Some 1;
         Article_magazine_id := Some 2 |}, newsroom)).
Proof.
  apply (proj1 (Article_magazine_follows_store newsroom
                  {| Article_id := Some 3; Article_title := Some "Hemlines";
                     Article_content := Some "Up"; Article_author_id := Some 1;
                     Article_magazine_id := Some 2 |}
                  2 newsroom_consistent eq_refl eq_refl eq_refl)
           {| m_id := 2; m_name := "Vogue"; m_category := "Fashion" |}).
  - simpl. tauto.
  - reflexivity.
Defined.

(* ================================================================= *)
(** ** UPDATE statements *)

Lemma map_unchanged {A} (f : A -> A) (l : list A) :
  (forall x, In x l -> f x = x) -> map f l = l.
Proof.
  induction l as [|x l IH]; simpl; intro H; [reflexivity|].
  rewrite (H x (or_introl eq_refl)), IH; auto.
Qed.

Lemma find_map_key {R} (key : R -> Z) (upd : R -> R) (p : option Z) (l : list R) :
  (forall x, key (upd x) = key x) ->
  find (fun r => id_is p (key r)) (map upd l)
  = option_map upd (find (fun r => id_is p (key r)) l).
Proof.
  intro H. induction l as [|x l IH]; simpl; [reflexivity|].
  rewrite H. destruct (id_is p (key x)); simpl; auto.
Qed.

Lemma table_eta {R} (t : table R) : {| rows := rows t; seq := seq t |} = t.
Proof. destruct t. reflexivity. Qed.

Section Rename.
Context {R : Type} (id : R -> Z) (name : R -> string) (upd : R -> R).
Context (i : Z) (n : string).
Hypothesis upd_id : forall r, id (upd r) = id r.
Hypothesis upd_name : forall r, name (upd r) = n.

Lemma rename_keeps_ids (l : list R) :
  map id (map (fun r => if id_is (Some i) (id r) then upd r else r) l) = map id l.
Proof.
  rewrite map_map. apply map_ext. intro r.
  destruct (id_is (Some i) (id r)); auto.
Qed.

Lemma rename_keeps_names_unique (l : list R) :
  NoDup (map id l) ->
  NoDup (map name l) ->
  (forall r, In r l -> id r <> i -> name r <> n) ->
  NoDup (map name (map (fun r => if id_is (Some i) (id r) then upd r else r) l)).
Proof.
  induction l as [|x l IH]; simpl; intros Hid Hname Hfree; [constructor|].
  inversion Hid as [|? ? Hx1 Hid']; inversion Hname as [|? ? Hx2 Hname']; subst.
  constructor.
  - rewrite map_map, in_map_iff. intros (y & E & Hy).
    destruct (id x =? i) eqn:Ex; destruct (id y =? i) eqn:Ey;
      rewrite ?upd_name in E.
    + apply Z.eqb_eq in Ex, Ey. apply Hx1. rewrite Ex, <- Ey. now apply in_map.
    + apply Z.eqb_neq in Ey. apply (Hfree y (or_intror Hy) Ey). exact E.
    + apply Z.eqb_neq in Ex. apply (Hfree x (or_introl eq_refl) Ex).
      symmetry. exact E.
    + apply Hx2. rewrite <- E. now apply in_map.
  - apply IH; auto.
Qed.
End Rename.

Lemma existsb_false_forall {A} (f : A -> bool) (l : list A) :
  existsb f l = false -> forall x, In x l -> f x = false.
Proof.
  intros H x Hx. destruct (f x) eqn:E; [|reflexivity].
  assert (existsb f l = true) by (apply existsb_exists; eauto). congruence.
Qed.

(** The author rows after a successful UPDATE of a name are consistent. *)
Lemma update_author_name_consistent (n : string) (p : option Z) (w w' : world)
      (r : res unit) :
  consistent w -> strip n = n -> n <> "" ->
  update_author_name n p w = (r, w') -> consistent w'.
Proof.
  intros Hw Hs Hne. unfold update_author_name. cbv zeta.
  destruct (existsb (fun r => id_is p (a_id r)) (rows (authors w))) eqn:Em;
    cbn [andb].
  - destruct (existsb (fun r => negb (id_is p (a_id r)) && String.eqb (a_name r) n)
                      (rows (authors w))) eqn:Eo;
      intro H; inversion H; subst; [exact Hw|].
    destruct p as [i|]; [|simpl in Em; rewrite existsb_find in Em;
      rewrite find_all_false in Em by reflexivity; discriminate].
    pose proof (existsb_false_forall _ _ Eo) as Hfree. cbv beta in Hfree.
    destruct Hw as [H1 H2 H3 H4 H5 H6].
    constructor; cbn [authors magazines set_authors rows]; auto.
    + rewrite (rename_keeps_ids a_id (fun r => {| a_id := a_id r; a_name := n |}));
        auto.
    + apply (rename_keeps_names_unique a_id a_name
               (fun r => {| a_id := a_id r; a_name := n |}) i n); auto.
      intros x Hx Hid E. specialize (Hfree x Hx). cbn [id_is] in Hfree.
      apply Z.eqb_neq in Hid. rewrite Hid in Hfree. cbn [negb andb] in Hfree.
      rewrite E, String.eqb_refl in Hfree. discriminate.
    + rewrite Forall_map. rewrite Forall_forall in *. intros x Hx.
      destruct (id_is (Some i) (a_id x)); cbn [a_name]; auto.
  - intro H. inversion H; subst.
    rewrite (map_unchanged _ _), table_eta.
    + destruct Hw; constructor; auto.
    + intros x Hx. rewrite (existsb_false_forall _ _ Em x Hx). reflexivity.
Qed.

Lemma update_magazine_name_consistent (n : string) (p : option Z) (w w' : world)
      (r : res unit) :
  consistent w -> update_magazine_name n p w = (r, w') -> consistent w'.
Proof.
  intros Hw. unfold update_magazine_name. cbv zeta.
  destruct (existsb (fun r => id_is p (m_id r)) (rows (magazines w))) eqn:Em;
    cbn [andb].
  - destruct (existsb (fun r => negb (id_is p (m_id r)) && String.eqb (m_name r) n)
                      (rows (magazines w))) eqn:Eo;
      intro H; inversion H; subst; [exact Hw|].
    destruct p as [i|]; [|simpl in Em; rewrite existsb_find in Em;
      rewrite find_all_false in Em by reflexivity; discriminate].
    pose proof (existsb_false_forall _ _ Eo) as Hfree. cbv beta in Hfree.
    destruct Hw as [H1 H2 H3 H4 H5 H6].
    constructor; cbn [authors magazines set_magazines rows]; auto.
    + rewrite (rename_keeps_ids m_id
                 (fun r => {| m_id := m_id r; m_name := n;
                              m_category := m_category r |})); auto.
    + rewrite Forall_map. rewrite Forall_forall in *. intros x Hx.
      destruct (id_is (Some i) (m_id x)); cbn [m_id]; auto.
    + apply (rename_keeps_names_unique m_id m_name
               (fun r => {| m_id := m_id r; m_name := n;
                            m_category := m_category r |}) i n); auto.
      intros x Hx Hid E. specialize (Hfree x Hx). cbn [id_is] in Hfree.
      apply Z.eqb_neq in Hid. rewrite Hid in Hfree. cbn [negb andb] in Hfree.
      rewrite E, String.eqb_refl in Hfree. discriminate.
  - intro H. inversion H; subst.
    rewrite (map_unchanged _ _), table_eta.
    + destruct Hw; constructor; auto.
    + intros x Hx. rewrite (existsb_false_forall _ _ Em x Hx). reflexivity.
Qed.

Lemma update_magazine_category_consistent (c : string) (p : option Z)
      (w w' : world) (r : res unit) :
  consistent w -> update_magazine_category c p w = (r, w') -> consistent w'.
Proof.
  intros Hw. unfold update_magazine_category. cbv zeta.
  destruct (existsb _ _ && negb _); intro H; inversion H; subst; [exact Hw|].
  destruct Hw as [H1 H2 H3 H4 H5 H6].
  constructor; cbn [authors magazines set_magazines rows]; auto.
  - rewrite map_map. erewrite map_ext; [exact H4|].
    intro x. destruct (id_is p (m_id x)); reflexivity.
  - rewrite Forall_map. rewrite Forall_forall in *. intros x Hx.
    destruct (id_is p (m_id x)); cbn [m_id]; auto.
  - rewrite map_map. erewrite map_ext; [exact H6|].
    intro x. destruct (id_is p (m_id x)); reflexivity.
Qed.

Lemma update_article_content_tables (c : string) (p : option Z) (w : world) :
  exists w', update_article_content c p w = (Ok tt, w')
             /\ authors w' = authors w /\ magazines w' = magazines w
             /\ online w' = online w.
Proof.
  unfold update_article_content, modify. eexists. split; [reflexivity|].
  repeat split.
Qed.

(** The four setters, whatever they are given and whether they return or
    raise, leave a consistent store consistent. *)
Theorem setters_keep_consistent (w : world) (v : pyval) :
  consistent w ->
  (forall (o o' : Author) w' r,
     Author_set_name v (o, w) = (r, (o', w')) -> consistent w')
  /\ (forall (o o' : Magazine) w' r,
        Magazine_set_name v (o, w) = (r, (o', w')) -> consistent w')
  /\ (forall (o o' : Magazine) w' r,
        Magazine_set_category v (o, w) = (r, (o', w')) -> consistent w')
  /\ (forall (o o' : Article) w' r,
        Article_set_content v (o, w) = (r, (o', w')) -> consistent w').
Proof.
  intro Hw. split; [|split; [|split]]; intros o o' w' r.
  - unfold Author_set_name, get_db_connection. unfold_monad. cbn [fst snd].
    destruct (str_non_blank v) as [s|] eqn:Es;
      [|intro H; inversion H; subst; exact Hw].
    pose proof (strip_of_non_blank v s Es) as Hs. cbn [fst snd].
    destruct (online w); cbn [fst snd];
      [|intro H; inversion H; subst; exact Hw].
    destruct (update_author_name (strip s) (Author_id o) w) as [[[]|e] w1] eqn:Eu;
      cbn [fst snd]; intro H; inversion H; subst;
      apply (update_author_name_consistent (strip s) _ w w' _ Hw
               (strip_idempotent s) Hs Eu).
  - unfold Magazine_set_name, get_db_connection. unfold_monad. cbn [fst snd].
    destruct (str_2_to_16 v) as [s|];
      [|intro H; inversion H; subst; exact Hw].
    cbn [fst snd].
    destruct (online w); cbn [fst snd];
      [|intro H; inversion H; subst; exact Hw].
    destruct (update_magazine_name s (Magazine_id o) w) as [[[]|e] w1] eqn:Eu;
      cbn [fst snd]; intro H; inversion H; subst;
      apply (update_magazine_name_consistent s _ w w' _ Hw Eu).
  - unfold Magazine_set_category, get_db_connection. unfold_monad. cbn [fst snd].
    destruct (str_non_empty v) as [s|];
      [|intro H; inversion H; subst; exact Hw].
    cbn [fst snd].
    destruct (online w); cbn [fst snd];
      [|intro H; inversion H; subst; exact Hw].
    destruct (update_magazine_category s (Magazine_id o) w) as [[[]|e] w1] eqn:Eu;
      cbn [fst snd]; intro H; inversion H; subst;
      apply (update_magazine_category_consistent s _ w w' _ Hw Eu).
  - unfold Article_set_content, get_db_connection. unfold_monad. cbn [fst snd].
    destruct (str_non_blank v) as [s|];
      [|intro H; inversion H; subst; exact Hw].
    cbn [fst snd].
    destruct (online w); cbn [fst snd];
      [|intro H; inversion H; subst; exact Hw].
    intro H. inversion H; subst.
    destruct Hw; constructor; auto.
Qed.

Lemma setters_keep_consistent_witness :
  consistent
    (snd (snd (Author_set_name (PyStr " Robert ")
                 ({| Author_id := Some 2; Author_name := Some "Bob" |}, newsroom)))).
Proof.
  apply (proj1 (setters_keep_consistent newsroom (PyStr " Robert ")
                  newsroom_consistent)
           {| Author_id := Some 2; Author_name := Some "Bob" |}
           {| Author_id := Some 2; Author_name := Some "Robert" |}
           _ (Ok tt)).
  reflexivity.
Defined.

(* ================================================================= *)
(** ** Constructors: invariants and round trips *)

Lemma insert_author_positive (n : string) (w w' : world) (r : res Z) :
  authors_positive w -> insert_author n w = (r, w') -> authors_positive w'.
Proof.
  unfold authors_positive, insert_author. cbv zeta. intro Hp.
  destruct (max_int64 <? _); [intro H; inversion H; subst; exact Hp|].
  destruct (existsb _ _); intro H; inversion H; subst; [exact Hp|].
  cbn [authors set_authors rows]. apply Forall_app. split; [exact Hp|].
  repeat constructor. simpl. apply next_rowid_positive.
  rewrite Forall_map. exact Hp.
Qed.

Lemma new_Author_positive (id name : pyval) (w w' : world) (r : res Author) :
  authors_positive w -> new_Author id name w = (r, w') -> authors_positive w'.
Proof.
  intro Hw.
  unfold new_Author, Author_init, Author_load_by_id, Author_create,
    call_fetch_data, fetch_data, get_db_connection.
  unfold_monad. cbn [fst snd Nat.eqb].
  destruct (is_None id); cbn [negb].
  - destruct (truthy name); [|intro H; inversion H; subst; exact Hw].
    destruct (str_non_blank name) as [s|];
      [|intro H; inversion H; subst; exact Hw].
    cbn [fst snd].
    destruct (online w) eqn:Hon; cbn [fst snd];
      [|intro H; inversion H; subst; exact Hw].
    destruct (select_author_id (strip s) w); cbn [fst snd];
      [intro H; inversion H; subst; exact Hw|].
    rewrite Hon. cbn [fst snd].
    destruct (insert_author (strip s) w) as [[i|e] w1] eqn:Ei; cbn [fst snd];
      intro H; inversion H; subst;
      apply (insert_author_positive (strip s) w w' _ Hw Ei).
  - destruct (positive_int id); [|intro H; inversion H; subst; exact Hw].
    cbn [fst snd].
    destruct (online w); cbn [fst snd];
      [|intro H; inversion H; subst; exact Hw].
    destruct (select_author_name (Some z) w);
      intro H; inversion H; subst; exact Hw.
Qed.

Lemma new_Article_by_id (w : world) (i : Z)
      (title content author_id magazine_id : pyval) :
  online w = true ->
  new_Article (Some i) title content author_id magazine_id w
  = match select_article (Some i) w with
    | Some r => (Ok (Article_of_row r), w)
    | None => (Raise (ValueError (Article_not_in_database i)), w)
    end.
Proof.
  intro Hon.
  unfold new_Article, Article_init, Article_load_by_id, call_fetch_data, fetch_data.
  unfold_monad. cbn [fst snd Nat.eqb].
  rewrite (get_db_connection_online w Hon). cbn [fst snd].
  destruct (select_article (Some i) w); reflexivity.
Qed.

Lemma new_Article_store (id : option Z)
      (title content author_id magazine_id : pyval) (w : world) :
  snd (new_Article id title content author_id magazine_id w) = w.
Proof.
  destruct id as [i|]; [|apply new_Article_leaves_store].
  unfold new_Article, Article_init, Article_load_by_id, call_fetch_data,
    fetch_data, get_db_connection.
  unfold_monad. cbn [fst snd Nat.eqb].
  destruct (online w); cbn [fst snd]; [|reflexivity].
  destruct (select_article (Some i) w); reflexivity.
Qed.

(** Every constructor call, with whatever arguments and whether it returns
    or raises, leaves a consistent store consistent, and the author ids
    positive. *)
Theorem constructors_keep_consistent (w : world) :
  consistent w ->
  authors_positive w ->
  (forall id name r w',
     new_Author id name w = (r, w') -> consistent w' /\ authors_positive w')
  /\ (forall id name category r w',
        new_Magazine id name category w = (r, w') ->
        consistent w' /\ authors_positive w')
  /\ (forall id title content author_id magazine_id r w',
        new_Article id title content author_id magazine_id w = (r, w') -> w' = w).
Proof.
  intros Hw Hp. split; [|split].
  - intros id name r w' H. split.
    + exact (new_Author_consistent id name w w' r Hw H).
    + exact (new_Author_positive id name w w' r Hp H).
  - intros id name category r w' H. split.
    + exact (new_Magazine_consistent id name category w w' r Hw H).
    + revert H.
      unfold new_Magazine, Magazine_init, Magazine_load_by_id, Magazine_create,
        get_db_connection, insert_magazine.
      unfold_monad. cbn [fst snd].
      destruct (is_None id); cbn [negb].
      * destruct (truthy name && truthy category);
          [|intro H; inversion H; subst; exact Hp].
        destruct (str_2_to_16 name) as [n|];
          [|intro H; inversion H; subst; exact Hp].
        destruct (str_non_empty category) as [c|];
          [|intro H; inversion H; subst; exact Hp].
        cbn [fst snd].
        destruct (online w); cbn [fst snd];
          [|intro H; inversion H; subst; exact Hp].
        destruct (select_magazine_id n c w); cbn [fst snd];
          [intro H; inversion H; subst; exact Hp|].
        destruct (max_int64 <? _); cbn [fst snd];
          [intro H; inversion H; subst; exact Hp|].
        destruct (negb (0 <? sqlite_length c)); cbn [fst snd];
          [intro H; inversion H; subst; exact Hp|].
        destruct (existsb _ _); cbn [fst snd];
          intro H; inversion H; subst; exact Hp.
      * destruct (positive_int id); [|intro H; inversion H; subst; exact Hp].
        cbn [fst snd].
        destruct (online w); cbn [fst snd];
          [|intro H; inversion H; subst; exact Hp].
        destruct (select_magazine_name_category (Some z) w) as [[n c]|];
          intro H; inversion H; subst; exact Hp.
  - intros id title content author_id magazine_id r w' H.
    pose proof (new_Article_store id title content author_id magazine_id w) as E.
    rewrite H in E. exact E.
Qed.

Lemma newsroom_authors_positive : authors_positive newsroom.
Proof. unfold authors_positive. simpl. repeat constructor. Qed.

Lemma constructors_keep_consistent_witness :
  consistent (snd (new_Author PyNone (PyStr "Carol") newsroom))
  /\ authors_positive (snd (new_Author PyNone (PyStr "Carol") newsroom)).
Proof.
  apply (proj1 (constructors_keep_consistent newsroom newsroom_consistent
                  newsroom_authors_positive)
           PyNone (PyStr "Carol")
           (Ok {| Author_id := Some 3; Author_name := Some "Carol" |})).
  reflexivity.
Defined.

Lemma new_Author_by_id (w : world) (i : Z) (name : pyval) (n : string) :
  0 < i -> online w = true ->
  select_author_name (Some i) w = Some n ->
  new_Author (PyInt i) name w
  = (Ok {| Author_id := Some i; Author_name := Some n |}, w).
Proof.
  intros Hi Hon Hrow.
  unfold new_Author, Author_init, Author_load_by_id, positive_int,
    call_fetch_data, fetch_data.
  unfold_monad. apply Z.ltb_lt in Hi. rewrite Hi. cbn [is_None negb fst snd Nat.eqb].
  rewrite (get_db_connection_online w Hon). cbn [fst snd].
  rewrite Hrow. reflexivity.
Qed.

Lemma new_Author_by_id_absent (w : world) (i : Z) (name : pyval) :
  0 < i -> online w = true ->
  ~ In i (map a_id (rows (authors w))) ->
  new_Author (PyInt i) name w
  = (Raise (ValueError (Author_not_in_database i)), w).
Proof.
  intros Hi Hon Hrow.
  unfold new_Author, Author_init, Author_load_by_id, positive_int,
    call_fetch_data, fetch_data, select_author_name.
  unfold_monad. apply Z.ltb_lt in Hi. rewrite Hi. cbn [is_None negb fst snd Nat.eqb].
  rewrite (get_db_connection_online w Hon). cbn [fst snd].
  rewrite (find_id_absent a_id _ i Hrow). reflexivity.
Qed.

Lemma select_author_name_row (w : world) (a : author_row) :
  consistent w -> In a (rows (authors w)) ->
  select_author_name (Some (a_id a)) w = Some (a_name a).
Proof.
  intros Hw Ha. unfold select_author_name.
  rewrite (find_id_is a_id _ a (authors_pk w Hw) Ha). reflexivity.
Qed.

(** What a successful construction from a name returns is a stored row. *)
Lemma new_Author_by_name_stored (w w1 : world) (name : pyval) (a : Author) :
  new_Author PyNone name w = (Ok a, w1) ->
  online w1 = true
  /\ exists row, In row (rows (authors w1)) /\ a = Author_of_row row.
Proof.
  unfold new_Author, Author_init, Author_create, call_fetch_data, fetch_data,
    get_db_connection, select_author_id, insert_author.
  unfold_monad. cbn [is_None negb fst snd Nat.eqb].
  destruct (truthy name); [|discriminate].
  destruct (str_non_blank name) as [s|]; [|discriminate]. cbn [fst snd].
  destruct (online w) eqn:Hon; cbn [fst snd]; [|discriminate].
  destruct (find _ _) as [row|] eqn:F; cbn [option_map fst snd].
  - intro H. inversion H; subst. split; [exact Hon|].
    apply find_some in F. destruct F as [Hin E]. apply String.eqb_eq in E.
    exists row. split; [exact Hin|]. unfold Author_of_row. rewrite E. reflexivity.
  - rewrite Hon. cbn [fst snd].
    destruct (max_int64 <? _); cbn [fst snd]; [discriminate|].
    destruct (existsb _ _); cbn [fst snd]; [discriminate|].
    intro H. inversion H; subst. split; [exact Hon|].
    eexists. split; [apply in_or_app; right; left; reflexivity|]. reflexivity.
Qed.

(** An author constructed from a name can be loaded back by the id it got:
    the load gives the same id and the same (stripped) name, whatever name
    argument comes with the id. *)
Theorem Author_create_then_load (w w1 : world) (name other : pyval) (a : Author) :
  consistent w ->
  authors_positive w ->
  new_Author PyNone name w = (Ok a, w1) ->
  new_Author (py_of_id (Author_id a)) other w1 = (Ok a, w1).
Proof.
  intros Hw Hp H.
  pose proof (new_Author_consistent _ _ _ _ _ Hw H) as Hw1.
  pose proof (new_Author_positive _ _ _ _ _ Hp H) as Hp1.
  destruct (new_Author_by_name_stored w w1 name a H) as (Hon & row & Hin & ->).
  unfold authors_positive in Hp1. rewrite Forall_forall in Hp1.
  cbn [Author_of_row Author_id py_of_id].
  apply new_Author_by_id; auto. now apply select_author_name_row.
Qed.

Lemma Author_create_then_load_witness :
  new_Author (PyInt 3) (PyStr "ignored")
    (snd (new_Author PyNone (PyStr " Carol ") newsroom))
  = (Ok {| Author_id := Some 3; Author_name := Some "Carol" |},
     snd (new_Author PyNone (PyStr " Carol ") newsroom)).
Proof.
  apply (Author_create_then_load newsroom _ (PyStr " Carol ") (PyStr "ignored")
           {| Author_id := Some 3; Author_name := Some "Carol" |}
           newsroom_consistent newsroom_authors_positive).
  reflexivity.
Defined.

(** What a successful construction from name and category returns is a
    stored row. *)
Lemma new_Magazine_by_fields_stored (w w1 : world) (name category : pyval)
      (m : Magazine) :
  new_Magazine PyNone name category w = (Ok m, w1) ->
  online w1 = true
  /\ exists row, In row (rows (magazines w1)) /\ m = Magazine_of_row row.
Proof.
  unfold new_Magazine, Magazine_init, Magazine_create, get_db_connection,
    select_magazine_id, insert_magazine.
  unfold_monad. cbn [is_None negb fst snd].
  destruct (truthy name && truthy category); [|discriminate].
  destruct (str_2_to_16 name) as [n|]; [|discriminate].
  destruct (str_non_empty category) as [c|]; [|discriminate]. cbn [fst snd].
  destruct (online w) eqn:Hon; cbn [fst snd]; [|discriminate].
  destruct (find _ _) as [row|] eqn:F; cbn [option_map fst snd].
  - intro H. inversion H; subst. split; [exact Hon|].
    apply find_some in F. destruct F as [Hin E].
    apply andb_true_iff in E. destruct E as [E1 E2].
    apply String.eqb_eq in E1, E2.
    exists row. split; [exact Hin|]. unfold Magazine_of_row.
    rewrite E1, E2. reflexivity.
  - destruct (max_int64 <? _); cbn [fst snd]; [discriminate|].
    destruct (negb (0 <? sqlite_length c)); cbn [fst snd]; [discriminate|].
    destruct (existsb _ _); cbn [fst snd]; [discriminate|].
    intro H. inversion H; subst. split; [exact Hon|].
    eexists. split; [apply in_or_app; right; left; reflexivity|]. reflexivity.
Qed.

(** A magazine constructed from name and category is what [Magazine.get]
    gives for the id it got. *)
Theorem Magazine_create_then_get (w w1 : world) (name category : pyval)
        (m : Magazine) :
  consistent w ->
  new_Magazine PyNone name category w = (Ok m, w1) ->
  Magazine_get (py_of_id (Magazine_id m)) w1 = (Ok m, w1).
Proof.
  intros Hw H.
  pose proof (new_Magazine_consistent _ _ _ _ _ _ Hw H) as Hw1.
  destruct (new_Magazine_by_fields_stored w w1 name category m H)
    as (Hon & row & Hin & ->).
  cbn [Magazine_of_row Magazine_id py_of_id].
  now apply Magazine_get_found.
Qed.

Lemma Magazine_create_then_get_witness :
  Magazine_get (PyInt 3)
    (snd (new_Magazine PyNone (PyStr "Wired") (PyStr "Technology") newsroom))
  = (Ok {| Magazine_id := Some 3; Magazine_name := Some "Wired";
           Magazine_category := Some "Technology" |},
     snd (new_Magazine PyNone (PyStr "Wired") (PyStr "Technology") newsroom)).
Proof.
  apply (Magazine_create_then_get newsroom _ (PyStr "Wired") (PyStr "Technology")
           {| Magazine_id := Some 3; Magazine_name := Some "Wired";
              Magazine_category := Some "Technology" |} newsroom_consistent).
  reflexivity.
Defined.

(** Loading an author by id gives the stored name of the id, raises the
    not-found error for a positive id of 64 bits without a row and the
    validation error for anything that is not a positive integer; the name
    argument is not looked at and the store is only read. *)
Theorem Author_load_lookup (w : world) (name : pyval) :
  consistent w ->
  online w = true ->
  (forall a, In a (rows (authors w)) -> 0 < a_id a ->
     new_Author (PyInt (a_id a)) name w = (Ok (Author_of_row a), w))
  /\ (forall i, 0 < i -> binds i -> ~ In i (map a_id (rows (authors w))) ->
        new_Author (PyInt i) name w
        = (Raise (ValueError (Author_not_in_database i)), w))
  /\ (forall i, i <= 0 ->
        new_Author (PyInt i) name w = (Raise (ValueError ID_must_be_positive), w))
  /\ (forall s,
        new_Author (PyStr s) name w = (Raise (ValueError ID_must_be_positive), w)).
Proof.
  intros Hw Hon. split; [|split; [|split]].
  - intros a Ha Hpos. apply new_Author_by_id; auto.
    now apply select_author_name_row.
  - intros i Hpos _ Hi. now apply new_Author_by_id_absent.
  - intros i Hi. unfold new_Author, Author_init, Author_load_by_id, positive_int.
    unfold_monad. apply Z.ltb_ge in Hi. rewrite Hi. reflexivity.
  - intro s. reflexivity.
Qed.

Lemma Author_load_lookup_witness :
  new_Author (PyInt 2) (PyStr "Jane Doe") newsroom
  = (Ok {| Author_id := Some 2; Author_name := Some "Bob" |}, newsroom)
  /\ new_Author (PyInt 7) PyNone newsroom
     = (Raise (ValueError (Author_not_in_database 7)), newsroom)
  /\ new_Author (PyInt 0) PyNone newsroom
     = (Raise (ValueError ID_must_be_positive), newsroom).
Proof.
  split; [|split].
  - apply (proj1 (Author_load_lookup newsroom (PyStr "Jane Doe")
                    newsroom_consistent eq_refl)
             {| a_id := 2; a_name := "Bob" |}); [simpl; tauto | simpl; lia].
  - apply (proj1 (proj2 (Author_load_lookup newsroom PyNone
                           newsroom_consistent eq_refl)));
      [lia | unfold binds, max_int64; lia | simpl; intuition lia].
  - apply (proj1 (proj2 (proj2 (Author_load_lookup newsroom PyNone
                                  newsroom_consistent eq_refl)))). lia.
Defined.

(* ================================================================= *)
(** ** Renaming an author *)

Lemma Author_set_name_run (o : Author) (w : world) (s : string) :
  online w = true ->
  strip s <> "" ->
  Author_set_name (PyStr s) (o, w)
  = match update_author_name (strip s) (Author_id o) w with
    | (Ok _, w') =>
        (Ok tt, ({| Author_id := Author_id o; Author_name := Some (strip s) |}, w'))
    | (Raise e, w') => (Raise e, (o, w'))
    end.
Proof.
  intros Hon Hs. unfold Author_set_name. unfold_monad.
  rewrite (str_non_blank_strip s Hs). cbn [fst snd].
  rewrite (get_db_connection_online w Hon). cbn [fst snd].
  destruct (update_author_name (strip s) (Author_id o) w) as [[[]|e] w'];
    reflexivity.
Qed.

Lemma update_author_name_free (n : string) (a : author_row) (w : world) :
  In a (rows (authors w)) ->
  (forall r, In r (rows (authors w)) -> a_id r <> a_id a -> a_name r <> n) ->
  update_author_name n (Some (a_id a)) w
  = (Ok tt,
     set_authors
       {| rows := map (fun r => if id_is (Some (a_id a)) (a_id r)
                                then {| a_id := a_id r; a_name := n |}
                                else r) (rows (authors w));
          seq := seq (authors w) |} w).
Proof.
  intros Ha Hfree. unfold update_author_name. cbv zeta.
  replace (existsb (fun r => negb (id_is (Some (a_id a)) (a_id r))
                             && String.eqb (a_name r) n) (rows (authors w)))
    with false; [rewrite andb_false_r; reflexivity|].
  symmetry. apply not_true_is_false. intro Hex. apply existsb_exists in Hex.
  destruct Hex as (r & Hr & E). apply andb_true_iff in E. destruct E as [E1 E2].
  apply negb_true_iff in E1. cbn [id_is] in E1. apply Z.eqb_neq in E1.
  apply String.eqb_eq in E2. exact (Hfree r Hr E1 E2).
Qed.

(** Renaming a stored author to a name no other author holds succeeds; the
    author then loads by its id with the new (stripped) name, and a
    construction from the new name reuses the id without inserting.  The
    other tables are untouched. *)
Theorem Author_rename_round_trip (w : world) (o : Author) (a : author_row)
        (s : string) :
  consistent w ->
  online w = true ->
  In a (rows (authors w)) ->
  0 < a_id a ->
  Author_id o = Some (a_id a) ->
  strip s <> "" ->
  (forall r, In r (rows (authors w)) -> a_id r <> a_id a -> a_name r <> strip s) ->
  let renamed := {| Author_id := Some (a_id a); Author_name := Some (strip s) |} in
  exists w',
    Author_set_name (PyStr s) (o, w) = (Ok tt, (renamed, w'))
    /\ new_Author (PyInt (a_id a)) PyNone w' = (Ok renamed, w')
    /\ new_Author PyNone (PyStr s) w' = (Ok renamed, w')
    /\ magazines w' = magazines w /\ articles w' = articles w.
Proof.
  intros Hw Hon Ha Hpos Hid Hs Hfree renamed.
  pose proof (update_author_name_free (strip s) a w Ha Hfree) as Hu.
  set (w' := set_authors _ w) in Hu.
  assert (consistent w') as Hw'
      by exact (update_author_name_consistent _ _ _ _ _ Hw
                  (strip_idempotent s) Hs Hu).
  assert (In {| a_id := a_id a; a_name := strip s |} (rows (authors w'))) as Hin.
  { subst w'. cbn [authors set_authors rows]. apply in_map_iff. exists a.
    split; [|exact Ha]. cbn [id_is]. rewrite Z.eqb_refl. reflexivity. }
  exists w'. split; [|split; [|split; [|split; reflexivity]]].
  - rewrite (Author_set_name_run o w s Hon Hs), Hid, Hu. reflexivity.
  - apply new_Author_by_id; auto.
    exact (select_author_name_row w' _ Hw' Hin).
  - rewrite (new_Author_by_name w' s) by auto.
    pose proof (select_author_row w' _ Hw' Hin) as E. cbn [a_name a_id] in E.
    rewrite E. reflexivity.
Qed.

Lemma Author_rename_round_trip_witness :
  exists w',
    Author_set_name (PyStr " Robert ")
      ({| Author_id := Some 2; Author_name := Some "Bob" |}, newsroom)
    = (Ok tt, ({| Author_id := Some 2; Author_name := Some (strip " Robert ") |}, w'))
    /\ new_Author (PyInt 2) PyNone w'
       = (Ok {| Author_id := Some 2; Author_name := Some (strip " Robert ") |}, w')
    /\ new_Author PyNone (PyStr " Robert ") w'
       = (Ok {| Author_id := Some 2; Author_name := Some (strip " Robert ") |}, w')
    /\ magazines w' = magazines newsroom /\ articles w' = articles newsroom.
Proof.
  apply (Author_rename_round_trip newsroom
           {| Author_id := Some 2; Author_name := Some "Bob" |}
           {| a_id := 2; a_name := "Bob" |} " Robert " newsroom_consistent eq_refl).
  - simpl. tauto.
  - simpl. lia.
  - reflexivity.
  - vm_compute. discriminate.
  - simpl. intros r [<- | [<- | []]]; simpl; intros H1 H2;
      [vm_compute in H2; discriminate | apply H1; reflexivity].
Defined.

(** Renaming an author to the name another stored author holds fails with
    the storage error of the UNIQUE constraint; the store and the object,
    its cached name included, are as before. *)
Theorem Author_rename_collision (w : world) (o : Author) (a b : author_row)
        (s : string) :
  online w = true ->
  In a (rows (authors w)) ->
  In b (rows (authors w)) ->
  a_id b <> a_id a ->
  Author_id o = Some (a_id a) ->
  strip s = a_name b ->
  strip s <> "" ->
  Author_set_name (PyStr s) (o, w)
  = (Raise (IntegrityError UNIQUE_authors_name), (o, w)).
Proof.
  intros Hon Ha Hb Hneq Hid Hs Hne.
  rewrite (Author_set_name_run o w s Hon Hne), Hid.
  unfold update_author_name. cbv zeta.
  assert (existsb (fun r => id_is (Some (a_id a)) (a_id r)) (rows (authors w))
          = true) as ->.
  { apply existsb_exists. exists a. split; [exact Ha|]. apply Z.eqb_refl. }
  assert (existsb (fun r => negb (id_is (Some (a_id a)) (a_id r))
                            && String.eqb (a_name r) (strip s)) (rows (authors w))
          = true) as ->.
  { apply existsb_exists. exists b. split; [exact Hb|].
    cbn [id_is]. apply Z.eqb_neq in Hneq. rewrite Hneq, Hs, String.eqb_refl.
    reflexivity. }
  reflexivity.
Qed.

Lemma Author_rename_collision_witness :
  Author_set_name (PyStr "Jane Doe  ")
    ({| Author_id := Some 2; Author_name := Some "Bob" |}, newsroom)
  = (Raise (IntegrityError UNIQUE_authors_name),
     ({| Author_id := Some 2; Author_name := Some "Bob" |}, newsroom)).
Proof.
  apply (Author_rename_collision newsroom _
           {| a_id := 2; a_name := "Bob" |} {| a_id := 1; a_name := "Jane Doe" |}
           "Jane Doe  " eq_refl).
  - simpl. tauto.
  - simpl. tauto.
  - simpl. lia.
  - reflexivity.
  - reflexivity.
  - vm_compute. discriminate.
Defined.

(* ================================================================= *)
(** ** Updating the content of an article *)

Lemma Article_set_content_run (o : Article) (w : world) (s : string) :
  online w = true ->
  strip s <> "" ->
  Article_set_content (PyStr s) (o, w)
  = (Ok tt,
     ({| Article_id := Article_id o; Article_title := Article_title o;
         Article_content := Some (strip s);
         Article_author_id := Article_author_id o;
         Article_magazine_id := Article_magazine_id o |},
      snd (update_article_content (strip s) (Article_id o) w))).
Proof.
  intros Hon Hs. unfold Article_set_content. unfold_monad.
  rewrite (str_non_blank_strip s Hs). cbn [fst snd].
  rewrite (get_db_connection_online w Hon). reflexivity.
Qed.

(** Setting the content of a stored article writes the stripped content to
    its row and to the object; loading the article again gives the new
    content with the title and the two references as they were, and no other
    row of any table is touched. *)
Theorem Article_content_round_trip (w : world) (o : Article) (r : article_row)
        (s : string) :
  online w = true ->
  articles_pk w ->
  In r (rows (articles w)) ->
  Article_id o = Some (r_id r) ->
  strip s <> "" ->
  exists o' w',
    Article_set_content (PyStr s) (o, w) = (Ok tt, (o', w'))
    /\ Article_content o' = Some (strip s)
    /\ new_Article (Some (r_id r)) PyNone PyNone PyNone PyNone w'
       = (Ok {| Article_id := Some (r_id r); Article_title := Some (r_title r);
                Article_content := Some (strip s);
                Article_author_id := Some (r_author_id r);
                Article_magazine_id := Some (r_magazine_id r) |}, w')
    /\ (forall r', In r' (rows (articles w)) -> r_id r' <> r_id r ->
          In r' (rows (articles w')))
    /\ authors w' = authors w /\ magazines w' = magazines w.
Proof.
  intros Hon Hpk Hr Hid Hs.
  rewrite (Article_set_content_run o w s Hon Hs), Hid.
  eexists. eexists. split; [reflexivity|]. split; [reflexivity|].
  unfold update_article_content, modify. cbn [snd].
  split; [|split; [|split; reflexivity]].
  - rewrite new_Article_by_id by exact Hon.
    unfold select_article. cbn [articles set_articles rows].
    rewrite (find_map_key r_id)
      by (intro x; destruct (id_is (Some (r_id r)) (r_id x)); reflexivity).
    rewrite (find_id_is r_id _ r Hpk Hr). cbn [option_map id_is].
    rewrite Z.eqb_refl. reflexivity.
  - intros r' Hr' Hneq. cbn [articles set_articles rows].
    apply in_map_iff. exists r'. split; [|exact Hr'].
    cbn [id_is]. apply Z.eqb_neq in Hneq. rewrite Hneq. reflexivity.
Qed.

Lemma Article_content_round_trip_witness :
  exists o' w',
    Article_set_content (PyStr "  Down  ") (Article_of_row
        {| r_id := 3; r_title := "Hemlines"; r_content := "Up";
           r_author_id := 1; r_magazine_id := 2 |}, newsroom)
    = (Ok tt, (o', w'))
    /\ Article_content o' = Some (strip "  Down  ")
    /\ new_Article (Some 3) PyNone PyNone PyNone PyNone w'
       = (Ok {| Article_id := Some 3; Article_title := Some "Hemlines";
                Article_content := Some (strip "  Down  ");
                Article_author_id := Some 1;
                Article_magazine_id := Some 2 |}, w').
Proof.
  destruct (Article_content_round_trip newsroom
              (Article_of_row {| r_id := 3; r_title := "Hemlines"; r_content := "Up";
                                 r_author_id := 1; r_magazine_id := 2 |})
              {| r_id := 3; r_title := "Hemlines"; r_content := "Up";
                 r_author_id := 1; r_magazine_id := 2 |} "  Down  "
              eq_refl newsroom_articles_pk)
    as (o' & w' & H1 & H2 & H3 & _).
  - simpl. tauto.
  - reflexivity.
  - vm_compute. discriminate.
  - exists o', w'. auto.
Defined.

Lemma set_articles_same (w : world) :
  set_articles {| rows := rows (articles w); seq := seq (articles w) |} w = w.
Proof. destruct w as [? ? ? ? [] ?]. reflexivity. Qed.

(** Setting the content of an article that has no row (its id is [None] or
    its row is gone) raises nothing: the UPDATE matches no row, the store is
    exactly as before, and the object caches the content all the same. *)
Theorem Article_content_without_row (w : world) (o : Article) (s : string) :
  online w = true ->
  strip s <> "" ->
  (forall r, In r (rows (articles w)) -> id_is (Article_id o) (r_id r) = false) ->
  Article_set_content (PyStr s) (o, w)
  = (Ok tt,
     ({| Article_id := Article_id o; Article_title := Article_title o;
         Article_content := Some (strip s);
         Article_author_id := Article_author_id o;
         Article_magazine_id := Article_magazine_id o |}, w)).
Proof.
  intros Hon Hs Hnone.
  rewrite (Article_set_content_run o w s Hon Hs).
  unfold update_article_content, modify. cbn [snd].
  rewrite map_unchanged, set_articles_same; [reflexivity|].
  intros x Hx. rewrite (Hnone x Hx). reflexivity.
Qed.

Lemma Article_content_without_row_witness :
  Article_set_content (PyStr "lost")
    ({| Article_id := Some 9; Article_title := Some "Gone with it";
        Article_content := Some "old"; Article_author_id := Some 1;
        Article_magazine_id := Some 1 |}, newsroom)
  = (Ok tt,
     ({| Article_id := Some 9; Article_title := Some "Gone with it";
         Article_content := Some (strip "lost"); Article_author_id := Some 1;
         Article_magazine_id := Some 1 |}, newsroom)).
Proof.
  apply (Article_content_without_row newsroom
           {| Article_id := Some 9; Article_title := Some "Gone with it";
              Article_content := Some "old"; Article_author_id := Some 1;
              Article_magazine_id := Some 1 |} "lost" eq_refl).
  - vm_compute. discriminate.
  - simpl. intros r [<- | [<- | [<- | [<- | []]]]]; reflexivity.
Defined.

(* ================================================================= *)
(** ** create_tables *)

(** On a store that can be opened, [create_tables] empties the three tables
    and restarts their keys: the first author and the first magazine
    constructed afterwards get id 1, whatever the store held before. *)
Theorem create_tables_restarts_ids (w : world) :
  online w = true ->
  exists w',
    create_tables w = (Ok tt, w')
    /\ rows (authors w') = [] /\ rows (magazines w') = []
    /\ rows (articles w') = []
    /\ (forall s, strip s <> "" ->
          fst (new_Author PyNone (PyStr s) w')
          = Ok {| Author_id := Some 1; Author_name := Some (strip s) |})
    /\ (forall n c, str_2_to_16 (PyStr n) = Some n -> 0 < sqlite_length c ->
          fst (new_Magazine PyNone (PyStr n) (PyStr c) w')
          = Ok {| Magazine_id := Some 1; Magazine_name := Some n;
                  Magazine_category := Some c |}).
Proof.
  intro Hon. unfold create_tables. unfold_monad.
  rewrite (get_db_connection_online w Hon). cbn [fst snd].
  eexists. split; [reflexivity|].
  split; [reflexivity|]. split; [reflexivity|]. split; [reflexivity|]. split.
  - intros s Hs. rewrite new_Author_by_name by (simpl; auto). reflexivity.
  - intros n c Hn Hc. rewrite new_Magazine_by_fields by (simpl; auto).
    unfold select_magazine_id, insert_magazine. simpl.
    apply Z.ltb_lt in Hc. rewrite Hc. reflexivity.
Qed.

Lemma create_tables_restarts_ids_witness :
  exists w',
    create_tables newsroom = (Ok tt, w')
    /\ fst (new_Author PyNone (PyStr "Jane Doe") w')
       = Ok {| Author_id := Some 1; Author_name := Some (strip "Jane Doe") |}.
Proof.
  destruct (create_tables_restarts_ids newsroom eq_refl)
    as (w' & H & _ & _ & _ & HA & _).
  exists w'. split; [exact H|]. apply HA. vm_compute. discriminate.
Defined.

(** When the store cannot be opened, [create_tables] does not return: the
    handler prints the error, the [finally] clause then reads the unbound
    [conn], and [UnboundLocalError] reaches the caller.  The tables are
    untouched. *)
Theorem create_tables_unbound_conn (w : world) :
  online w = false ->
  create_tables w
  = (Raise UnboundLocalError,
     write_stdout (Print_error_creating_tables OperationalError) w).
Proof.
  intro Hoff. unfold create_tables. unfold_monad.
  rewrite (get_db_connection_offline w Hoff). reflexivity.
Qed.

Lemma create_tables_unbound_conn_witness :
  create_tables (unplugged newsroom)
  = (Raise UnboundLocalError,
     write_stdout (Print_error_creating_tables OperationalError)
                  (unplugged newsroom)).
Proof. apply (create_tables_unbound_conn (unplugged newsroom)). reflexivity. Defined.

(* ================================================================= *)
(** ** Author: the lazy name and the id setter *)

(** Reading [author.name] with a falsy cached name fetches the stored name
    of the author's id and caches it, or raises the not-found error when no
    row has the id; with a cached name it returns the cache without opening
    the store. *)
Theorem Author_name_is_lazy (w : world) (o : Author) :
  (falsy_attr (Author_name o) = false ->
   Author_get_name (o, w) = (Ok (Author_name o), (o, w)))
  /\ (falsy_attr (Author_name o) = true -> online w = true ->
      (forall a, consistent w -> In a (rows (authors w)) ->
         Author_id o = Some (a_id a) ->
         Author_get_name (o, w)
         = (Ok (Some (a_name a)), (Author_of_row a, w)))
      /\ ((forall r, In r (rows (authors w)) ->
             id_is (Author_id o) (a_id r) = false) ->
          Author_get_name (o, w) = (Raise (ValueError Author_row_gone), (o, w)))).
Proof.
  split.
  - intro Hc. unfold Author_get_name. unfold_monad. cbn [fst snd].
    rewrite Hc. reflexivity.
  - intros Hf Hon. split.
    + intros a Hw Ha Hid.
      unfold Author_get_name, call_fetch_data, fetch_data. unfold_monad.
      cbn [fst snd Nat.eqb]. rewrite Hf. cbn [fst snd].
      rewrite (get_db_connection_online w Hon). cbn [fst snd].
      rewrite Hid, (select_author_name_row w a Hw Ha).
      cbn [fst snd Author_name]. rewrite Hid. reflexivity.
    + intro Hnone.
      unfold Author_get_name, call_fetch_data, fetch_data, select_author_name.
      unfold_monad. cbn [fst snd Nat.eqb]. rewrite Hf. cbn [fst snd].
      rewrite (get_db_connection_online w Hon). cbn [fst snd].
      rewrite (find_all_false _ _ Hnone). reflexivity.
Qed.

Lemma Author_name_is_lazy_witness :
  Author_get_name ({| Author_id := Some 2; Author_name := None |}, newsroom)
  = (Ok (Some "Bob"), ({| Author_id := Some 2; Author_name := Some "Bob" |}, newsroom))
  /\ Author_get_name ({| Author_id := Some 2; Author_name := Some "Robert" |},
                      unplugged newsroom)
     = (Ok (Some "Robert"),
        ({| Author_id := Some 2; Author_name := Some "Robert" |}, unplugged newsroom)).
Proof.
  split.
  - apply (proj1 (proj2 (Author_name_is_lazy newsroom
                           {| Author_id := Some 2; Author_name := None |})
                        eq_refl eq_refl)
             {| a_id := 2; a_name := "Bob" |} newsroom_consistent).
    + simpl. tauto.
    + reflexivity.
  - apply (proj1 (Author_name_is_lazy (unplugged newsroom)
                    {| Author_id := Some 2; Author_name := Some "Robert" |})).
    reflexivity.
Defined.

(** Assigning [author.id] checks that the value is a positive integer and
    then only repoints the object: the store is not read, so a cached name
    stays and [author.name] keeps returning it, whatever name the row of the
    new id holds. *)
Theorem Author_id_setter_keeps_name (w : world) (o : Author) (v : pyval) :
  (positive_int v = None ->
   Author_set_id v (o, w) = (Raise (ValueError ID_must_be_positive), (o, w)))
  /\ (forall i, positive_int v = Some i ->
        Author_set_id v (o, w)
        = (Ok tt, ({| Author_id := Some i; Author_name := Author_name o |}, w))
        /\ (falsy_attr (Author_name o) = false ->
            Author_get_name ({| Author_id := Some i; Author_name := Author_name o |}, w)
            = (Ok (Author_name o),
               ({| Author_id := Some i; Author_name := Author_name o |}, w)))).
Proof.
  split.
  - intro Hv. unfold Author_set_id. unfold_monad. rewrite Hv. reflexivity.
  - intros i Hv. split.
    + unfold Author_set_id. unfold_monad. rewrite Hv. reflexivity.
    + intro Hc. unfold Author_get_name. unfold_monad. cbn [fst snd Author_name].
      rewrite Hc. reflexivity.
Qed.

Lemma Author_id_setter_keeps_name_witness :
  Author_set_id (PyInt 2) ({| Author_id := Some 1; Author_name := Some "Jane Doe" |},
                           newsroom)
  = (Ok tt, ({| Author_id := Some 2; Author_name := Some "Jane Doe" |}, newsroom))
  /\ Author_get_name ({| Author_id := Some 2; Author_name := Some "Jane Doe" |},
                      newsroom)
     = (Ok (Some "Jane Doe"),
        ({| Author_id := Some 2; Author_name := Some "Jane Doe" |}, newsroom))
  /\ select_author_name (Some 2) newsroom = Some "Bob".
Proof.
  destruct (proj2 (Author_id_setter_keeps_name newsroom
                     {| Author_id := Some 1; Author_name := Some "Jane Doe" |}
                     (PyInt 2)) 2 eq_refl) as [H1 H2].
  split; [exact H1|]. split; [exact (H2 eq_refl) | reflexivity].
Defined.

(* ================================================================= *)
(** ** What constructing an author may change *)

(** Constructing an author never touches the magazines or the articles and
    never changes or removes an author row: it either leaves the authors as
    they are or appends one row, whose id is larger than every id the table
    holds or ever held (ids are not reused). *)
Theorem new_Author_only_appends (w w' : world) (id name : pyval) (r : res Author) :
  new_Author id name w = (r, w') ->
  magazines w' = magazines w
  /\ articles w' = articles w
  /\ (authors w' = authors w
      \/ exists i n,
           rows (authors w')
           = (rows (authors w) ++ [{| a_id := i; a_name := n |}])%list
           /\ r = Ok {| Author_id := Some i; Author_name := Some n |}
           /\ seq (authors w) < i
           /\ (forall x, In x (rows (authors w)) -> a_id x < i /\ a_name x <> n)).
Proof.
  unfold new_Author, Author_init, Author_load_by_id, Author_create,
    call_fetch_data, fetch_data, get_db_connection.
  unfold_monad. cbn [fst snd Nat.eqb].
  destruct (is_None id); cbn [negb].
  - destruct (truthy name); [|intro H; inversion H; subst; auto].
    destruct (str_non_blank name) as [s|]; [|intro H; inversion H; subst; auto].
    cbn [fst snd].
    destruct (online w) eqn:Hon; cbn [fst snd];
      [|intro H; inversion H; subst; auto].
    destruct (select_author_id (strip s) w); cbn [fst snd];
      [intro H; inversion H; subst; auto|].
    rewrite Hon. cbn [fst snd]. unfold insert_author. cbv zeta.
    destruct (max_int64 <? _); cbn [fst snd];
      [intro H; inversion H; subst; auto|].
    destruct (existsb _ _) eqn:Ex; cbn [fst snd];
      intro H; inversion H; subst; [auto|].
    split; [reflexivity|]. split; [reflexivity|]. right.
    eexists. eexists. split; [reflexivity|]. split; [reflexivity|]. split.
    + unfold next_rowid. lia.
    + intros x Hx. split.
      * apply next_rowid_fresh. now apply in_map.
      * intro E. pose proof (existsb_false_forall _ _ Ex x Hx) as F.
        cbv beta in F. rewrite E, String.eqb_refl in F. discriminate.
  - destruct (positive_int id); [|intro H; inversion H; subst; auto].
    cbn [fst snd].
    destruct (online w); cbn [fst snd]; [|intro H; inversion H; subst; auto].
    destruct (select_author_name (Some z) w); intro H; inversion H; subst; auto.
Qed.

Lemma new_Author_only_appends_witness :
  rows (authors (snd (new_Author PyNone (PyStr "Carol") newsroom)))
  = (rows (authors newsroom) ++ [{| a_id := 3; a_name := "Carol" |}])%list
  /\ magazines (snd (new_Author PyNone (PyStr "Carol") newsroom))
     = magazines newsroom.
Proof.
  destruct (new_Author_only_appends newsroom
              (snd (new_Author PyNone (PyStr "Carol") newsroom))
              PyNone (PyStr "Carol")
              (fst (new_Author PyNone (PyStr "Carol") newsroom)) eq_refl)
    as (Hm & _ & _).
  split; [reflexivity | exact Hm].
Defined.

(* ================================================================= *)
(** ** Author.articles against Author.magazines *)





(* ================================================================= *)
(** ** Changing the category of a magazine *)

Lemma Magazine_set_category_run (o : Magazine) (w : world) (c : string) :
  online w = true ->
  0 < sqlite_length c ->
  Magazine_set_category (PyStr c) (o, w)
  = (Ok tt,
     ({| Magazine_id := Magazine_id o; Magazine_name := Magazine_name o;
         Magazine_category := Some c |},
      set_magazines
        {| rows := map (fun r => if id_is (Magazine_id o) (m_id r)
                                 then {| m_id := m_id r; m_name := m_name r;
                                         m_category := c |}
                                 else r) (rows (magazines w));
           seq := seq (magazines w) |} w)).
Proof.
  intros Hon Hc. destruct (sqlite_length_positive c Hc) as [_ Hv].
  unfold Magazine_set_category, update_magazine_category. unfold_monad.
  rewrite Hv. cbn [fst snd].
  rewrite (get_db_connection_online w Hon). cbn [fst snd].
  apply Z.ltb_lt in Hc. rewrite Hc. cbn [negb]. rewrite andb_false_r.
  reflexivity.
Qed.

Lemma select_magazine_id_row (w : world) (m : magazine_row) :
  consistent w -> In m (rows (magazines w)) ->
  select_magazine_id (m_name m) (m_category m) w = Some (m_id m).
Proof.
  intros Hw Hm. unfold select_magazine_id.
  destruct (find _ _) as [x|] eqn:F.
  - apply find_some in F. destruct F as [Hx E].
    apply andb_true_iff in E. destruct E as [E _]. apply String.eqb_eq in E.
    rewrite (key_injective m_name _ x m (magazines_unique_name w Hw) Hx Hm E).
    reflexivity.
  - pose proof (find_none _ _ F m Hm) as E. cbv beta in E.
    rewrite !String.eqb_refl in E. discriminate.
Qed.

(** A stored magazine is reused by a construction from its name and
    category.  Once its category has been changed through the setter, the
    magazine loads with the new category, and the construction from the old
    pair no longer reuses it: it fails with the storage error of the UNIQUE
    constraint on the name, or, at an exhausted key, with the engine's
    refusal of the INSERT. *)
Theorem Magazine_recategorised_blocks_reuse (w : world) (o : Magazine)
        (m : magazine_row) (c2 : string) :
  consistent w ->
  online w = true ->
  In m (rows (magazines w)) ->
  Magazine_id o = Some (m_id m) ->
  str_2_to_16 (PyStr (m_name m)) = Some (m_name m) ->
  0 < sqlite_length (m_category m) ->
  0 < sqlite_length c2 ->
  c2 <> m_category m ->
  new_Magazine PyNone (PyStr (m_name m)) (PyStr (m_category m)) w
  = (Ok (Magazine_of_row m), w)
  /\ exists o' w',
       Magazine_set_category (PyStr c2) (o, w) = (Ok tt, (o', w'))
       /\ Magazine_category o' = Some c2
       /\ Magazine_get (PyInt (m_id m)) w'
          = (Ok {| Magazine_id := Some (m_id m); Magazine_name := Some (m_name m);
                   Magazine_category := Some c2 |}, w')
       /\ (magazines_room w ->
           new_Magazine PyNone (PyStr (m_name m)) (PyStr (m_category m)) w'
           = (Raise (IntegrityError UNIQUE_magazines_name), w'))
       /\ (~ magazines_room w ->
           new_Magazine PyNone (PyStr (m_name m)) (PyStr (m_category m)) w'
           = (Raise OperationalError, w')).
Proof.
  intros Hw Hon Hm Hid Hn Hc Hc2 Hneq. split.
  - rewrite (new_Magazine_by_fields w _ _ Hon Hn Hc).
    rewrite (select_magazine_id_row w m Hw Hm). reflexivity.
  - rewrite (Magazine_set_category_run o w c2 Hon Hc2), Hid.
    set (w' := set_magazines _ w).
    assert (update_magazine_category c2 (Some (m_id m)) w = (Ok tt, w')) as Hu.
    { unfold update_magazine_category. cbv zeta.
      pose proof Hc2 as Hb. apply Z.ltb_lt in Hb. rewrite Hb.
      cbn [negb]. rewrite andb_false_r. reflexivity. }
    pose proof (update_magazine_category_consistent _ _ _ _ _ Hw Hu) as Hw'.
    set (m' := {| m_id := m_id m; m_name := m_name m; m_category := c2 |}).
    assert (In m' (rows (magazines w'))) as Hin.
    { subst w'. cbn [magazines set_magazines rows]. apply in_map_iff. exists m.
      split; [|exact Hm]. cbn [id_is]. rewrite Z.eqb_refl. reflexivity. }
    assert (magazines_room w' <-> magazines_room w) as Hroom.
    { unfold magazines_room. subst w'. cbn [magazines set_magazines rows seq].
      rewrite map_map.
      erewrite (map_ext _ m_id); [reflexivity|].
      intro x. destruct (id_is (Some (m_id m)) (m_id x)); reflexivity. }
    assert (m_category m <> m_category m') as Hneq'
        by (cbn [m' m_category]; congruence).
    assert (online w' = true) as Hon' by exact Hon.
    pose proof (other_category_not_found w' m' (m_category m) Hw' Hin Hneq')
      as Hnone.
    cbn [m' m_name] in Hnone.
    eexists. exists w'. split; [reflexivity|]. split; [reflexivity|].
    split; [|split].
    + exact (Magazine_get_found w' m' Hw' Hon Hin).
    + intro Hr. apply Hroom in Hr.
      rewrite (new_Magazine_by_fields w' _ _ Hon' Hn Hc), Hnone.
      pose proof (insert_magazine_collides w' m' (m_category m) Hr Hin Hc)
        as Hins.
      cbn [m' m_name] in Hins. rewrite Hins. reflexivity.
    + intro Hr. rewrite <- Hroom in Hr.
      rewrite (new_Magazine_by_fields w' _ _ Hon' Hn Hc), Hnone.
      rewrite (insert_magazine_full _ _ w' Hr). reflexivity.
Qed.

Lemma Magazine_recategorised_blocks_reuse_witness :
  new_Magazine PyNone (PyStr "Vogue") (PyStr "Fashion") newsroom
  = (Ok {| Magazine_id := Some 2; Magazine_name := Some "Vogue";
           Magazine_category := Some "Fashion" |}, newsroom)
  /\ exists o' w',
       Magazine_set_category (PyStr "Style")
         ({| Magazine_id := Some 2; Magazine_name := Some "Vogue";
             Magazine_category := Some "Fashion" |}, newsroom)
       = (Ok tt, (o', w'))
       /\ new_Magazine PyNone (PyStr "Vogue") (PyStr "Fashion") w'
          = (Raise (IntegrityError UNIQUE_magazines_name), w').
Proof.
  destruct (Magazine_recategorised_blocks_reuse newsroom
              {| Magazine_id := Some 2; Magazine_name := Some "Vogue";
                 Magazine_category := Some "Fashion" |}
              {| m_id := 2; m_name := "Vogue"; m_category := "Fashion" |}
              "Style" newsroom_consistent eq_refl)
    as (H1 & o' & w' & H2 & _ & _ & H4 & _).
  - simpl. tauto.
  - reflexivity.
  - reflexivity.
  - reflexivity.
  - reflexivity.
  - discriminate.
  - split; [exact H1|]. exists o', w'. split; [exact H2|].
    apply H4. vm_compute. discriminate.
Defined.

(* ================================================================= *)
(** ** Magazine.articles against Magazine.contributors *)

Lemma Magazine_articles_run (w : world) (m : Magazine) :
  online w = true ->
  Magazine_articles (m, w)
  = (Ok (select_articles_of_magazine (Magazine_id m) w), (m, w)).
Proof.
  intro Hon. unfold Magazine_articles. unfold_monad. cbn [fst snd].
  rewrite (get_db_connection_online w Hon). reflexivity.
Qed.

(** In a consistent store the two views of a magazine agree: a stored
    author is among [magazine.contributors()] exactly when one of the tuples
    of [magazine.articles()] carries the author's id. *)
Theorem Magazine_contributors_match_articles (w : world) (m : Magazine) (k : Z) :
  consistent w ->
  online w = true ->
  Magazine_id m = Some k ->
  exists cs arts,
    Magazine_contributors (m, w) = (Ok cs, (m, w))
    /\ Magazine_articles (m, w) = (Ok arts, (m, w))
    /\ (forall a, In a (rows (authors w)) ->
          (In (Author_of_row a) cs <-> exists t c, In (t, c, a_id a) arts)).
Proof.
  intros Hw Hon Hk. eexists. eexists.
  split; [apply Magazine_contributors_run; assumption|].
  split; [apply Magazine_articles_run; assumption|].
  rewrite Hk. intros a Ha. split.
  - intro H. apply in_map_iff in H. destruct H as (n & E & Hn).
    injection E as _ En. subst n.
    apply contributor_names_In in Hn. destruct Hn as (x & Hx & E & Hex).
    assert (x = a) as ->
        by (apply (key_injective a_name _ x a (authors_unique_name w Hw)); auto).
    apply existsb_exists in Hex. destruct Hex as (r & Hr & E1).
    apply andb_true_iff in E1. destruct E1 as [E1 E2]. apply Z.eqb_eq in E1.
    exists (r_title r), (r_content r). unfold select_articles_of_magazine.
    apply in_map_iff. exists r. split; [now rewrite E1|].
    apply filter_In. split; [exact Hr | exact E2].
  - intros (t & c & H). unfold select_articles_of_magazine in H.
    apply in_map_iff in H. destruct H as (r & E & Hr).
    apply filter_In in Hr. destruct Hr as [Hr E2].
    injection E as _ _ Ea.
    apply in_map_iff. exists (a_name a). split.
    + unfold Author_of_row. rewrite (select_author_row w a Hw Ha). reflexivity.
    + apply contributor_names_In. exists a. split; [exact Ha|].
      split; [reflexivity|]. apply existsb_exists. exists r.
      split; [exact Hr|]. rewrite Ea, Z.eqb_refl. exact E2.
Qed.

Lemma Magazine_contributors_match_articles_witness :
  exists cs (arts : list (string * string * Z)%type),
    Magazine_contributors (Magazine_of_row
        {| m_id := 2; m_name := "Vogue"; m_category := "Fashion" |}, newsroom)
    = (Ok cs, (Magazine_of_row
         {| m_id := 2; m_name := "Vogue"; m_category := "Fashion" |}, newsroom))
    /\ (In (Author_of_row {| a_id := 1; a_name := "Jane Doe" |}) cs
        <-> exists t c, In (t, c, 1) arts).
Proof.
  destruct (Magazine_contributors_match_articles newsroom
              (Magazine_of_row {| m_id := 2; m_name := "Vogue";
                                  m_category := "Fashion" |}) 2
              newsroom_consistent eq_refl eq_refl)
    as (cs & arts & H1 & _ & H3).
  exists cs, arts. split; [exact H1|].
  apply (H3 {| a_id := 1; a_name := "Jane Doe" |}). simpl. tauto.
Defined.

(* ================================================================= *)
(** ** Renaming a magazine; the bounds of its name *)

Lemma Magazine_set_name_run (o : Magazine) (w : world) (n : string) :
  online w = true ->
  str_2_to_16 (PyStr n) = Some n ->
  Magazine_set_name (PyStr n) (o, w)
  = match update_magazine_name n (Magazine_id o) w with
    | (Ok _, w') =>
        (Ok tt, ({| Magazine_id := Magazine_id o; Magazine_name := Some n;
                    Magazine_category := Magazine_category o |}, w'))
    | (Raise e, w') => (Raise e, (o, w'))
    end.
Proof.
  intros Hon Hn. unfold Magazine_set_name. unfold_monad.
  rewrite Hn. cbn [fst snd].
  rewrite (get_db_connection_online w Hon). cbn [fst snd].
  destruct (update_magazine_name n (Magazine_id o) w) as [[[]|e] w'];
    reflexivity.
Qed.

(** Renaming a stored magazine to a name of 2 to 16 characters that no other
    magazine holds succeeds, and [Magazine.get] then gives the new name with
    the category as it was; renaming it to the name of another stored
    magazine fails with the storage error of the UNIQUE constraint and
    changes neither the store nor the object. *)
Theorem Magazine_rename (w : world) (o : Magazine) (m : magazine_row) (n : string) :
  consistent w ->
  online w = true ->
  In m (rows (magazines w)) ->
  Magazine_id o = Some (m_id m) ->
  str_2_to_16 (PyStr n) = Some n ->
  ((forall r, In r (rows (magazines w)) -> m_id r <> m_id m -> m_name r <> n) ->
   exists o' w',
     Magazine_set_name (PyStr n) (o, w) = (Ok tt, (o', w'))
     /\ Magazine_name o' = Some n
     /\ Magazine_get (PyInt (m_id m)) w'
        = (Ok {| Magazine_id := Some (m_id m); Magazine_name := Some n;
                 Magazine_category := Some (m_category m) |}, w')
     /\ authors w' = authors w /\ articles w' = articles w)
  /\ (forall b, In b (rows (magazines w)) -> m_id b <> m_id m -> m_name b = n ->
        Magazine_set_name (PyStr n) (o, w)
        = (Raise (IntegrityError UNIQUE_magazines_name), (o, w))).
Proof.
  intros Hw Hon Hm Hid Hn.
  assert (existsb (fun r => id_is (Some (m_id m)) (m_id r)) (rows (magazines w))
          = true) as Hmatch.
  { apply existsb_exists. exists m. split; [exact Hm | apply Z.eqb_refl]. }
  split.
  - intro Hfree.
    assert (existsb (fun r => negb (id_is (Some (m_id m)) (m_id r))
                              && String.eqb (m_name r) n) (rows (magazines w))
            = false) as Hother.
    { apply not_true_is_false. intro Hex. apply existsb_exists in Hex.
      destruct Hex as (r & Hr & E). apply andb_true_iff in E.
      destruct E as [E1 E2]. apply negb_true_iff in E1. cbn [id_is] in E1.
      apply Z.eqb_neq in E1. apply String.eqb_eq in E2.
      exact (Hfree r Hr E1 E2). }
    rewrite (Magazine_set_name_run o w n Hon Hn), Hid.
    destruct (update_magazine_name n (Some (m_id m)) w) as [u w'] eqn:Hu.
    pose proof (update_magazine_name_consistent _ _ _ _ _ Hw Hu) as Hw'.
    unfold update_magazine_name in Hu. cbv zeta in Hu.
    rewrite Hmatch, Hother in Hu. cbn [andb] in Hu.
    injection Hu as <- <-.
    set (m' := {| m_id := m_id m; m_name := n; m_category := m_category m |}).
    eexists. eexists. split; [reflexivity|]. split; [reflexivity|].
    split; [|split; reflexivity].
    apply (Magazine_get_found _ m' Hw' Hon).
    cbn [magazines set_magazines rows]. apply in_map_iff. exists m.
    split; [|exact Hm]. cbn [id_is]. rewrite Z.eqb_refl. reflexivity.
  - intros b Hb Hneq Hname.
    rewrite (Magazine_set_name_run o w n Hon Hn), Hid.
    unfold update_magazine_name. cbv zeta. rewrite Hmatch.
    replace (existsb (fun r => negb (id_is (Some (m_id m)) (m_id r))
                               && String.eqb (m_name r) n) (rows (magazines w)))
      with true; [reflexivity|].
    symmetry. apply existsb_exists. exists b. split; [exact Hb|].
    cbn [id_is]. apply Z.eqb_neq in Hneq.
    rewrite Hneq, Hname, String.eqb_refl. reflexivity.
Qed.

Lemma Magazine_rename_witness :
  (exists o' w',
     Magazine_set_name (PyStr "Wired")
       (Magazine_of_row {| m_id := 1; m_name := "Tech Weekly";
                           m_category := "Technology" |}, newsroom)
     = (Ok tt, (o', w'))
     /\ Magazine_name o' = Some "Wired")
  /\ Magazine_set_name (PyStr "Vogue")
       (Magazine_of_row {| m_id := 1; m_name := "Tech Weekly";
                           m_category := "Technology" |}, newsroom)
     = (Raise (IntegrityError UNIQUE_magazines_name),
        (Magazine_of_row {| m_id := 1; m_name := "Tech Weekly";
                            m_category := "Technology" |}, newsroom)).
Proof.
  split.
  - destruct (proj1 (Magazine_rename newsroom
                       (Magazine_of_row {| m_id := 1; m_name := "Tech Weekly";
                                           m_category := "Technology" |})
                       {| m_id := 1; m_name := "Tech Weekly";
                          m_category := "Technology" |} "Wired"
                       newsroom_consistent eq_refl
                       (or_introl eq_refl) eq_refl eq_refl))
      as (o' & w' & H1 & H2 & _).
    + simpl. intros r [<- | [<- | []]]; simpl; intros H1 H2;
        [apply H1; reflexivity | discriminate].
    + exists o', w'. auto.
  - apply (proj2 (Magazine_rename newsroom
                    (Magazine_of_row {| m_id := 1; m_name := "Tech Weekly";
                                        m_category := "Technology" |})
                    {| m_id := 1; m_name := "Tech Weekly";
                       m_category := "Technology" |} "Vogue"
                    newsroom_consistent eq_refl
                    (or_introl eq_refl) eq_refl eq_refl)
             {| m_id := 2; m_name := "Vogue"; m_category := "Fashion" |}).
    + simpl. tauto.
    + simpl. lia.
    + reflexivity.
Defined.

(** A magazine name shorter than 2 or longer than 16 characters is rejected
    with the validation error of the name, by the setter and by the
    constructor alike, before the store is opened; the constructor reports
    the empty name differently, as missing arguments. *)
Theorem Magazine_name_bounds (w : world) (o : Magazine) (n c : string) :
  len n < 2 \/ 16 < len n ->
  Magazine_set_name (PyStr n) (o, w)
  = (Raise (ValueError Name_must_be_2_to_16), (o, w))
  /\ (n <> "" -> c <> "" ->
      new_Magazine PyNone (PyStr n) (PyStr c) w
      = (Raise (ValueError Name_must_be_2_to_16), w))
  /\ new_Magazine PyNone (PyStr "") (PyStr c) w
     = (Raise (ValueError Magazine_needs_id_or_name_and_category), w).
Proof.
  intro Hb.
  assert (str_2_to_16 (PyStr n) = None) as Hn.
  { unfold str_2_to_16.
    destruct ((2 <=? len n) && (len n <=? 16)) eqn:E; [|reflexivity].
    apply andb_true_iff in E. destruct E as [E1 E2].
    apply Z.leb_le in E1, E2. lia. }
  split; [|split].
  - unfold Magazine_set_name. unfold_monad. rewrite Hn. reflexivity.
  - intros Hne Hce.
    unfold new_Magazine, Magazine_init, Magazine_create. unfold_monad.
    cbn [is_None negb fst snd truthy].
    rewrite (eqb_empty_false n Hne), (eqb_empty_false c Hce). cbn [negb andb].
    rewrite Hn. reflexivity.
  - reflexivity.
Qed.

Lemma Magazine_name_bounds_witness :
  Magazine_set_name (PyStr "A Name Of 17 Char")
    (Magazine_of_row {| m_id := 2; m_name := "Vogue"; m_category := "Fashion" |},
     newsroom)
  = (Raise (ValueError Name_must_be_2_to_16),
     (Magazine_of_row {| m_id := 2; m_name := "Vogue"; m_category := "Fashion" |},
      newsroom))
  /\ new_Magazine PyNone (PyStr "X") (PyStr "Science") newsroom
     = (Raise (ValueError Name_must_be_2_to_16), newsroom).
Proof.
  assert (len "X" < 2 \/ 16 < len "X") as Hshort
      by (left; vm_compute; reflexivity).
  assert (len "A Name Of 17 Char" < 2 \/ 16 < len "A Name Of 17 Char") as Hlong
      by (right; vm_compute; reflexivity).
  split.
  - exact (proj1 (Magazine_name_bounds newsroom
                    (Magazine_of_row {| m_id := 2; m_name := "Vogue";
                                        m_category := "Fashion" |})
                    "A Name Of 17 Char" "Science" Hlong)).
  - apply (proj1 (proj2 (Magazine_name_bounds newsroom
                           (Magazine_of_row {| m_id := 2; m_name := "Vogue";
                                               m_category := "Fashion" |})
                           "X" "Science" Hshort))); discriminate.
Defined.

(* ================================================================= *)
(** ** Blank author names; accessors of a magazine without a row *)

(** An author name made of whitespace only is rejected with the validation
    error of the name, by the setter and by the constructor alike, before
    the store is opened: object and store are as before. *)
Theorem Author_blank_name_rejected (w : world) (o : Author) (s : string) :
  all_space s = true ->
  Author_set_name (PyStr s) (o, w)
  = (Raise (ValueError Name_must_be_non_empty), (o, w))
  /\ (s <> "" ->
      new_Author PyNone (PyStr s) w
      = (Raise (ValueError Name_must_be_non_empty), w)).
Proof.
  intro Hs. pose proof (str_non_blank_all_space s Hs) as Hb. split.
  - unfold Author_set_name. unfold_monad. rewrite Hb. reflexivity.
  - intro Hne. unfold new_Author, Author_init, Author_create. unfold_monad.
    cbn [is_None negb fst snd truthy]. rewrite (eqb_empty_false s Hne).
    cbn [negb]. rewrite Hb. reflexivity.
Qed.

Lemma Author_blank_name_rejected_witness :
  Author_set_name (PyStr "   ")
    ({| Author_id := Some 2; Author_name := Some "Bob" |}, unplugged newsroom)
  = (Raise (ValueError Name_must_be_non_empty),
     ({| Author_id := Some 2; Author_name := Some "Bob" |}, unplugged newsroom))
  /\ new_Author PyNone (PyStr "   ") newsroom
     = (Raise (ValueError Name_must_be_non_empty), newsroom).
Proof.
  split.
  - apply (proj1 (Author_blank_name_rejected (unplugged newsroom)
                    {| Author_id := Some 2; Author_name := Some "Bob" |} "   "
                    eq_refl)).
  - apply (proj2 (Author_blank_name_rejected newsroom
                    {| Author_id := Some 2; Author_name := Some "Bob" |} "   "
                    eq_refl)).
    discriminate.
Defined.

(** Reading the name of a magazine whose cached name is falsy raises when
    the row cannot be loaded: the validation error of the id when the object
    has no id, the not-found error when no row has its id.  The object keeps
    its fields. *)
Theorem Magazine_accessor_without_row (w : world) (o : Magazine) :
  falsy_attr (Magazine_name o) = true ->
  (Magazine_id o = None ->
   Magazine_get_name (o, w) = (Raise (ValueError ID_must_be_positive), (o, w)))
  /\ (forall i, Magazine_id o = Some i -> 0 < i -> online w = true ->
        ~ In i (map m_id (rows (magazines w))) ->
        Magazine_get_name (o, w)
        = (Raise (ValueError (Magazine_not_in_database i)), (o, w))).
Proof.
  intro Hf. split.
  - intro Hid. unfold Magazine_get_name, Magazine_load_by_id. unfold_monad.
    cbn [fst snd]. rewrite Hf, Hid. reflexivity.
  - intros i Hid Hpos Hon Hi.
    unfold Magazine_get_name, Magazine_load_by_id, positive_int,
      select_magazine_name_category.
    unfold_monad. cbn [fst snd]. rewrite Hf, Hid. cbn [py_of_id].
    apply Z.ltb_lt in Hpos. rewrite Hpos. cbn [fst snd].
    rewrite (get_db_connection_online w Hon). cbn [fst snd].
    rewrite (find_id_absent m_id _ i Hi). reflexivity.
Qed.

Lemma Magazine_accessor_without_row_witness :
  Magazine_get_name ({| Magazine_id := Some 8; Magazine_name := None;
                        Magazine_category := Some "Fashion" |}, newsroom)
  = (Raise (ValueError (Magazine_not_in_database 8)),
     ({| Magazine_id := Some 8; Magazine_name := None;
         Magazine_category := Some "Fashion" |}, newsroom)).
Proof.
  apply (proj2 (Magazine_accessor_without_row newsroom
                  {| Magazine_id := Some 8; Magazine_name := None;
                     Magazine_category := Some "Fashion" |} eq_refl) 8).
  - reflexivity.
  - lia.
  - reflexivity.
  - simpl. intuition lia.
Defined.
